(** * SIFT tile engine: mercator tile calculator, flat-file tile store and
      deferred-render scheduler

    Shallow embedding of
      - [py/cspov/tests/gltiles.py]  ([MercatorTileCalc], [FlatFileTileSet])
      - [sift/view/MapWidget.py]     ([SIFTMainMapWidget.on_draw],
                                      [SIFTMainMapWidget.render_layers])

    Conventions of the embedding.
      - Python [int] is [Z]; Python [float] is idealised as an exact rational
        [Q] (every concrete input used below is a small integer, on which
        binary floating point is exact as well).
      - [np.floor] / [np.ceil] followed by [int(...)] are [Qfloor] / [Qceiling].
      - A Python exception is a value of [exn]; fallible code lives in the
        [result] monad, stateful code threads a [world] explicitly.
      - The dictionary [_active] is a [gmap (Z * Z) Z]. *)

From Stdlib Require Import ZArith QArith Qround Lia List String.
From stdpp Require Import gmap.
Import ListNotations.

Local Open Scope Z_scope.

(** ** Python-level plumbing *)

Module Py.

Inductive exn : Type :=
| AssertionError
| ZeroDivisionError
| KeyError
| TypeError.

Inductive result (A : Type) : Type :=
| Ok (a : A)
| Raise (e : exn).
Arguments Ok {A} a.
Arguments Raise {A} e.

Definition bind {A B} (m : result A) (k : A -> result B) : result B :=
  match m with
  | Ok a => k a
  | Raise e => Raise e
  end.

Definition raises {A} (m : result A) : Prop := exists e, m = Raise e.

(** [assert(c)] *)
Definition py_assert (c : bool) : result unit :=
  if c then Ok tt else Raise AssertionError.

(** [a / d] on two integers.  Under Python 2 this is floor division, under
    Python 3 true division; both raise on a zero divisor and both give the
    same number whenever [a % d == 0], which the constructor asserts right
    after using it. *)
Definition py_div (a d : Z) : result Z :=
  if d =? 0 then Raise ZeroDivisionError else Ok (a / d).

(** [a % d] on two integers (sign of the divisor, as [Z.modulo]). *)
Definition py_mod (a d : Z) : result Z :=
  if d =? 0 then Raise ZeroDivisionError else Ok (a mod d).

(** [x / y] on floats. *)
Definition py_fdiv (x y : Q) : result Q :=
  if Qeq_bool y 0 then Raise ZeroDivisionError else Ok (x / y)%Q.

(** [x > y] on floats. *)
Definition Qgt_bool (x y : Q) : bool := negb (Qle_bool x y).

(** [float(n)] *)
Definition float (n : Z) : Q := inject_Z n.

(** An index expression used in a slice must be an integer: a rational
    stands for a Python [int] exactly when its reduced denominator is 1.
    This reads a bound by its value; it is the code's behaviour for a zero
    point given as Python ints (numpy rejects a float-typed bound whatever
    its value). *)
Definition as_index (q : Q) : result Z :=
  let q' := Qred q in
  if Pos.eqb (Qden q') 1 then Ok (Qnum q') else Raise TypeError.

(** Normalisation of one slice bound against a length, as Python does it:
    a negative bound counts from the end, and the result is clipped. *)
Definition norm_bound (len i : Z) : Z :=
  let i' := if i <? 0 then i + len else i in
  Z.max 0 (Z.min len i').

(** [xs[s:e]] *)
Definition slice {A} (xs : list A) (s e : Z) : list A :=
  let len := Z.of_nat (length xs) in
  let s' := norm_bound len s in
  let e' := norm_bound len e in
  firstn (Z.to_nat (e' - s')) (skipn (Z.to_nat s') xs).

(** [data[ys:ye, xs:xe]] on a two-dimensional array stored by rows. *)
Definition slice2 {A} (data : list (list A)) (ys ye xs xe : Z) : list (list A) :=
  List.map (fun row => slice row xs xe) (slice data ys ye).

(** [data.shape] *)
Definition shape {A} (data : list (list A)) : Z * Z :=
  (Z.of_nat (length data),
   match data with [] => 0 | row :: _ => Z.of_nat (length row) end).

End Py.

Import Py.

Notation "x <- m ;; k" := (bind m (fun x => k))
  (at level 100, m at next level, right associativity).
Notation "m ;;; k" := (bind m (fun _ => k))
  (at level 100, right associativity).

(** ** Coordinates: [box], [rez] *)

Record box (A : Type) : Type := mkbox { b : A; l : A; t : A; r : A }.
Arguments mkbox {A} b l t r.
Arguments b {A} _.
Arguments l {A} _.
Arguments t {A} _.
Arguments r {A} _.

Record rez : Type := mkrez { dy : Q; dx : Q }.

(** ** MercatorTileCalc *)

Module TileCalc.

Definition OVERSAMPLED : Z := 1.
Definition UNDERSAMPLED : Z := -1.
Definition WELLSAMPLED : Z := 0.

Definition DEFAULT_TILE_HEIGHT : Z := 256.
Definition DEFAULT_TILE_WIDTH : Z := 512.

Record MercatorTileCalc : Type := mkCalc {
  name : string;
  pixel_shape : Z * Z;
  zero_point : Q * Q;
  pixel_rez : rez;
  tile_shape : Z * Z;
  (* derived *)
  extents_box : box Q;
  tiles_avail : Z * Z
}.

(** [MercatorTileCalc.__init__] *)
Definition init (name : string) (pixel_shape : Z * Z) (zero_point : Q * Q)
    (pixel_rez : rez) (tile_shape : Z * Z) : result MercatorTileCalc :=
  py_assert (Qgt_bool (dy pixel_rez) 0) ;;;
  py_assert (Qgt_bool (dx pixel_rez) 0) ;;;
  let '(h, w) := pixel_shape in
  let '(zy, zx) := zero_point in
  let pxbelow := (- zy)%Q in
  let pxabove := (float h - zy)%Q in
  let pxright := (float w - zx)%Q in
  let pxleft := (- zx)%Q in
  let extents_box :=
    {| b := (pxbelow * dy pixel_rez)%Q;
       t := (pxabove * dy pixel_rez)%Q;
       l := (pxleft * dx pixel_rez)%Q;
       r := (pxright * dx pixel_rez)%Q |} in
  ny <- py_div h (fst tile_shape) ;;
  nx <- py_div w (snd tile_shape) ;;
  let tiles_avail := (ny, nx) in
  my <- py_mod h (fst tile_shape) ;;
  py_assert (my =? 0) ;;;
  mx <- py_mod w (snd tile_shape) ;;
  py_assert (mx =? 0) ;;;
  Ok (mkCalc name pixel_shape zero_point pixel_rez tile_shape extents_box tiles_avail).

(** [MercatorTileCalc.visible_tiles] *)
Definition visible_tiles (self : MercatorTileCalc) (visible_geom : box Q)
    (extra_tiles_box : box Z) : result (Z * box Z) :=
  let V := visible_geom in
  let X := extra_tiles_box in
  let E := extents_box self in
  let Z_ := pixel_rez self in
  (* pixel view b *)
  pv_b <- py_fdiv (b V - b E) (dy Z_) ;;
  pv_l <- py_fdiv (l V - l E) (dx Z_) ;;
  pv_t <- py_fdiv (t V - b E) (dy Z_) ;;
  pv_r <- py_fdiv (r V - l E) (dx Z_) ;;
  (* number of tiles wide and high we'll absolutely need *)
  let '(th, tw) := tile_shape self in
  qh <- py_fdiv (pv_t - pv_b) (float th) ;;
  let nth := Qceiling qh in
  qw <- py_fdiv (pv_r - pv_l) (float tw) ;;
  let ntw := Qceiling qw in
  (* first tile we'll need is (tiy0,tix0) *)
  qy <- py_fdiv pv_b (float th) ;;
  let tiy0 := Qfloor qy in
  qx <- py_fdiv pv_l (float tw) ;;
  let tix0 := Qfloor qx in
  (* now add the extras *)
  let '(tiy0, nth) :=
    if 0 <? b X then (tiy0 - b X, nth + b X) else (tiy0, nth) in
  let '(tix0, ntw) :=
    if 0 <? l X then (tix0 - l X, ntw + l X) else (tix0, ntw) in
  let nth := if 0 <? t X then nth + t X else nth in
  let ntw := if 0 <? r X then ntw + r X else ntw in
  (* truncate to the available tiles *)
  let '(tix0, ntw) := if tix0 <? 0 then (0, ntw + tix0) else (tix0, ntw) in
  let '(tiy0, nth) := if tiy0 <? 0 then (0, nth + tiy0) else (tiy0, nth) in
  let '(ath, atw) := tiles_avail self in
  let xth := ath - (tiy0 + nth) in
  let nth := if xth <? 0 then nth + xth else nth in
  let xtw := atw - (tix0 + ntw) in
  let ntw := if xtw <? 0 then ntw + xtw else ntw in
  let overunder := WELLSAMPLED in
  let tileset :=
    {| b := tiy0; l := tix0; t := tiy0 + nth; r := tix0 + ntw |} in
  Ok (overunder, tileset).

(** [MercatorTileCalc.tile_pixels] *)
Definition tile_pixels {A} (self : MercatorTileCalc) (data : list (list A)) (tiy tix : Z)
    : list (list A) :=
  slice2 data
    (tiy * fst (tile_shape self)) ((tiy + 1) * fst (tile_shape self))
    (tix * snd (tile_shape self)) ((tix + 1) * snd (tile_shape self)).

End TileCalc.

(** ** FlatFileTileSet *)

Module TileStore.
Import TileCalc.

(** *** The OpenGL texture sink

    OpenGL is an external collaborator; the store only relies on
    [glGenTextures] handing out a name that is not in use, on
    [glBindTexture] / [glTexSubImage2D] uploading to it, and on
    [glDeleteTextures] freeing names.  The sink keeps the set of live
    texture names and a log of the calls made on it. *)

Inductive gl_call : Type :=
| GenTextures (texid : Z)
| BindTexture (texid : Z)
| TexSubImage2D
| DeleteTextures (ts : list Z).

Record GL : Type := mkGL {
  gl_next : Z;
  gl_live : gset Z;
  gl_log : list gl_call
}.

Definition glGenTextures (g : GL) : Z * GL :=
  let texid := gl_next g in
  (texid,
   {| gl_next := texid + 1;
      gl_live := {[texid]} ∪ gl_live g;
      gl_log := gl_log g ++ [GenTextures texid] |}).

Definition glBindTexture (texid : Z) (g : GL) : GL :=
  {| gl_next := gl_next g; gl_live := gl_live g;
     gl_log := gl_log g ++ [BindTexture texid] |}.

Definition glTexSubImage2D (g : GL) : GL :=
  {| gl_next := gl_next g; gl_live := gl_live g;
     gl_log := gl_log g ++ [TexSubImage2D] |}.

Definition glDeleteTextures (ts : list Z) (g : GL) : GL :=
  {| gl_next := gl_next g;
     gl_live := gl_live g ∖ list_to_set ts;
     gl_log := gl_log g ++ [DeleteTextures ts] |}.

Definition is_gen (c : gl_call) : bool :=
  match c with GenTextures _ => true | _ => false end.
Definition is_upload (c : gl_call) : bool :=
  match c with TexSubImage2D => true | _ => false end.

(** Number of texture allocations / uploads performed so far. *)
Definition allocations (g : GL) : nat := length (List.filter is_gen (gl_log g)).
Definition uploads (g : GL) : nat := length (List.filter is_upload (gl_log g)).

(** *** The store *)

Record FlatFileTileSet : Type := mkStore {
  data : list (list Z);
  path : string;
  _active : gmap (Z * Z) Z;   (* {(y,x): texture, ...} *)
  _calc : MercatorTileCalc
}.

(** The store together with the GL context it draws into. *)
Record world : Type := mkWorld {
  store : FlatFileTileSet;
  gl : GL
}.

(** What a method hands back to its caller: a texture name, or [None]
    when the body falls off its end without a [return]. *)
Inductive pyret : Type :=
| PyNone
| TexId (texid : Z).

(** [FlatFileTileSet.__init__]; [np.memmap(path, dtype, 'r', shape=shape)]
    is the array [data], whose shape is the [shape] argument. *)
Definition init (path : string) (data : list (list Z)) (zero_point : Q * Q)
    (pixel_rez : rez) (tile_shape : Z * Z) : result FlatFileTileSet :=
  calc <- TileCalc.init path (shape data) zero_point pixel_rez tile_shape ;;
  Ok {| data := data; path := path; _active := ∅; _calc := calc |}.

(** The bounds [ys, ye, xs, xe] that [activate] computes for its slice. *)
Definition activate_bounds (self : FlatFileTileSet) (tile_yx : Z * Z)
    : Q * Q * Q * Q :=
  let '(tile_y, tile_x) := tile_yx in
  let '(th, tw) := tile_shape (_calc self) in
  let ys := (float (tile_y * th) * fst (zero_point (_calc self)))%Q in
  let xs := (float (tile_x * tw) * snd (zero_point (_calc self)))%Q in
  let ye := (ys + float th)%Q in
  let xe := (xs + float tw)%Q in
  (ys, ye, xs, xe).

(** [npslice = self.data[ys:ye, xs:xe]] followed by the two assertions. *)
Definition activate_slice (self : FlatFileTileSet) (tile_yx : Z * Z)
    : result (list (list Z)) :=
  let '(ys, ye, xs, xe) := activate_bounds self tile_yx in
  iys <- as_index ys ;;
  iye <- as_index ye ;;
  ixs <- as_index xs ;;
  ixe <- as_index xe ;;
  let npslice := slice2 (data self) iys iye ixs ixe in
  py_assert (ixe <=? snd (shape (data self))) ;;;
  py_assert (iye <=? fst (shape (data self))) ;;;
  Ok npslice.

(** [FlatFileTileSet.activate]: the body has no [return] statement. *)
Definition activate (tile_yx : Z * Z) (w : world) : result pyret * world :=
  let self := store w in
  let '(texid, g1) := glGenTextures (gl w) in
  match activate_slice self tile_yx with
  | Raise e => (Raise e, {| store := self; gl := g1 |})
  | Ok npslice =>
      let g2 := glBindTexture texid g1 in
      let g3 := glTexSubImage2D g2 in
      let self' :=
        {| data := data self; path := path self;
           _active := <[tile_yx := texid]> (_active self);
           _calc := _calc self |} in
      (Ok PyNone, {| store := self'; gl := g3 |})
  end.

(** [FlatFileTileSet.__getitem__] *)
Definition getitem (tileyx : Z * Z) (w : world) : result pyret * world :=
  match _active (store w) !! tileyx with
  | Some texid => (Ok (TexId texid), w)
  | None => activate tileyx w
  end.

(** [FlatFileTileSet.deactivate], statement by statement. *)
Definition del_active (k : Z * Z) (w : world) : world :=
  {| store :=
       {| data := data (store w); path := path (store w);
          _active := delete k (_active (store w));
          _calc := _calc (store w) |};
     gl := gl w |}.

Definition delete_textures (ts : list Z) (w : world) : world :=
  {| store := store w; gl := glDeleteTextures ts (gl w) |}.

(** The worlds [deactivate] goes through: on entry, after
    [del self._active[k]], after [glDeleteTextures([t])]. *)
Definition deactivate_trace (tile_y tile_x : Z) (w : world) : result (list world) :=
  let k := (tile_y, tile_x) in
  match _active (store w) !! k with
  | None => Raise KeyError
  | Some t_ =>
      let w1 := del_active k w in
      let w2 := delete_textures [t_] w1 in
      Ok [w; w1; w2]
  end.

Definition deactivate (tile_y tile_x : Z) (w : world) : result unit * world :=
  let k := (tile_y, tile_x) in
  match _active (store w) !! k with
  | None => (Raise KeyError, w)
  | Some t_ =>
      let w1 := del_active k w in
      let w2 := delete_textures [t_] w1 in
      (Ok tt, w2)
  end.

End TileStore.

(** ** SIFTMainMapWidget: the deferred-render scheduler *)

Module MapWidget.

(** A layer object, compared by identity. *)
Definition Layer : Type := nat.

Record SIFTMainMapWidget : Type := mkWidget {
  _deferred_render_layers : list Layer;
  _deferred_render_timer : option nat;
  (* environment: single-shot callbacks Qt still has to deliver, the
     [layer.render] calls made so far, the [self.update()] requests *)
  single_shots : nat;
  render_calls : list Layer;
  updates : nat
}.

(** [cand not in self._deferred_render_layers] *)
Definition mem (x : Layer) (xs : list Layer) : bool :=
  existsb (Nat.eqb x) xs.

(** The loop [for cand in render_candidates: if cand not in ...: append]. *)
Definition enqueue (deferred : list Layer) (render_candidates : list Layer)
    : list Layer :=
  fold_left
    (fun acc cand => if mem cand acc then acc else acc ++ [cand])
    render_candidates deferred.

(** [SIFTMainMapWidget.on_draw].  [drawing_plan] is the sequence of layers
    the plan yields for this frame and [paint layer] the value that
    [layer.paint(visible_geom, mvp)] returns.  [QTimer.singleShot] is a
    static method: it schedules the callback and returns [None]. *)
Definition on_draw (paint : Layer -> bool) (drawing_plan : list Layer)
    (self : SIFTMainMapWidget) : SIFTMainMapWidget :=
  let render_candidates := List.filter paint drawing_plan in
  match render_candidates with
  | [] => self
  | _ :: _ =>
      let deferred := enqueue (_deferred_render_layers self) render_candidates in
      let shots :=
        match _deferred_render_timer self with
        | Some _ => Nat.pred (single_shots self)   (* timer.stop() *)
        | None => single_shots self
        end in
      {| _deferred_render_layers := deferred;
         _deferred_render_timer := None;
         single_shots := S shots;
         render_calls := render_calls self;
         updates := updates self |}
  end.



Definition fresh : SIFTMainMapWidget :=
  {| _deferred_render_layers := [];
     _deferred_render_timer := None;
     single_shots := 0;
     render_calls := [];
     updates := 0 |}.

End MapWidget.

(** ** Vocabulary used to state the properties *)

Module TileCalcSpec.
Import TileCalc.

(** What [pixel_shape] being an exact multiple of [tile_shape] means for
    the constructor: [h % th] can be taken and is [0]. *)
Definition exact_multiple (a d : Z) : bool :=
  match py_mod a d with
  | Ok m => m =? 0
  | Raise _ => false
  end.

(** Malformed raster dimensions: a non-positive resolution, or a pixel
    shape that is not an exact multiple of the tile shape. *)
Definition malformed (pixel_shape : Z * Z) (pixel_rez : rez) (tile_shape : Z * Z) : Prop :=
  (dy pixel_rez <= 0)%Q \/ (dx pixel_rez <= 0)%Q \/
  exact_multiple (fst pixel_shape) (fst tile_shape) = false \/
  exact_multiple (snd pixel_shape) (snd tile_shape) = false.

(** The extents the constructor derives. *)
Definition extents_of (pixel_shape : Z * Z) (zero_point : Q * Q) (pixel_rez : rez) : box Q :=
  {| b := (- fst zero_point * dy pixel_rez)%Q;
     l := (- snd zero_point * dx pixel_rez)%Q;
     t := ((float (fst pixel_shape) - fst zero_point) * dy pixel_rez)%Q;
     r := ((float (snd pixel_shape) - snd zero_point) * dx pixel_rez)%Q |}.

(** The divisors [visible_tiles] uses are non-zero on a constructed
    calculator. *)
Definition divisors_nonzero (c : MercatorTileCalc) : Prop :=
  ~ (dy (pixel_rez c) == 0)%Q /\ ~ (dx (pixel_rez c) == 0)%Q /\
  fst (tile_shape c) <> 0 /\ snd (tile_shape c) <> 0.

(** No extra tiles around the edges: the default [box(0,0,0,0)]. *)
Definition zero_margin : box Z := mkbox 0 0 0 0.

(** The requested pixel range: the world box in pixel coordinates, as
    [visible_tiles] converts it. *)
Definition pixel_view (c : MercatorTileCalc) (V : box Q) : box Q :=
  {| b := ((b V - b (extents_box c)) / dy (pixel_rez c))%Q;
     l := ((l V - l (extents_box c)) / dx (pixel_rez c))%Q;
     t := ((t V - b (extents_box c)) / dy (pixel_rez c))%Q;
     r := ((r V - l (extents_box c)) / dx (pixel_rez c))%Q |}.

(** One axis of [visible_tiles]: from the pixel interval [lo, hi], the tile
    size, the two margins and the number of tiles on the axis, to the first
    tile index and the index one past the last. *)
Definition axis_range (lo hi : Q) (tsize xlo xhi avail : Z) : Z * Z :=
  let nt := Qceiling ((hi - lo) / float tsize) in
  let ti0 := Qfloor (lo / float tsize) in
  let '(ti0, nt) := if 0 <? xlo then (ti0 - xlo, nt + xlo) else (ti0, nt) in
  let nt := if 0 <? xhi then nt + xhi else nt in
  let '(ti0, nt) := if ti0 <? 0 then (0, nt + ti0) else (ti0, nt) in
  let x := avail - (ti0 + nt) in
  let nt := if x <? 0 then nt + x else nt in
  (ti0, ti0 + nt).

(** The world box that covers exactly the pixel footprint of tile (iy, ix). *)
Definition tile_footprint_world (c : MercatorTileCalc) (iy ix : Z) : box Q :=
  let '(th, tw) := tile_shape c in
  {| b := (b (extents_box c) + float (iy * th) * dy (pixel_rez c))%Q;
     l := (l (extents_box c) + float (ix * tw) * dx (pixel_rez c))%Q;
     t := (b (extents_box c) + float ((iy + 1) * th) * dy (pixel_rez c))%Q;
     r := (l (extents_box c) + float ((ix + 1) * tw) * dx (pixel_rez c))%Q |}.

(** Tile (iy, ix) exists. *)
Definition in_bounds (c : MercatorTileCalc) (iy ix : Z) : Prop :=
  0 <= iy < fst (tiles_avail c) /\ 0 <= ix < snd (tiles_avail c).

(** The pixel footprint of tile (iy, ix) meets the pixel range [pv] in more
    than a boundary line. *)
Definition tile_intersects (c : MercatorTileCalc) (pv : box Q) (iy ix : Z) : Prop :=
  (float (iy * fst (tile_shape c)) < t pv)%Q /\
  (b pv < float ((iy + 1) * fst (tile_shape c)))%Q /\
  (float (ix * snd (tile_shape c)) < r pv)%Q /\
  (l pv < float ((ix + 1) * snd (tile_shape c)))%Q.

(** Tile (iy, ix) belongs to the tile-index box [tb] (top and right
    exclusive). *)
Definition covers (tb : box Z) (iy ix : Z) : Prop :=
  b tb <= iy < t tb /\ l tb <= ix < r tb.

(** Two world boxes overlap. *)
Definition boxes_intersect (B1 B2 : box Q) : Prop :=
  (b B1 < t B2)%Q /\ (b B2 < t B1)%Q /\ (l B1 < r B2)%Q /\ (l B2 < r B1)%Q.

(** World box [B1] lies inside world box [B2]. *)
Definition box_within (B1 B2 : box Q) : Prop :=
  (b B2 <= b B1)%Q /\ (l B2 <= l B1)%Q /\ (t B1 <= t B2)%Q /\ (r B1 <= r B2)%Q.

(** Tile-index box [T1] lies inside tile-index box [T2]. *)
Definition tiles_within (T1 T2 : box Z) : Prop :=
  b T2 <= b T1 /\ l T2 <= l T1 /\ t T1 <= t T2 /\ r T1 <= r T2.

(** A tile-index box inside the available tiles, of non-negative extent. *)
Definition well_clamped (c : MercatorTileCalc) (tb : box Z) : Prop :=
  0 <= b tb /\ b tb <= t tb /\ t tb <= fst (tiles_avail c) /\
  0 <= l tb /\ l tb <= r tb /\ r tb <= snd (tiles_avail c).

(** The raster of the scenario: 512 x 1024 pixels in 256 x 512 tiles, world
    origin at pixel (0, 0), one world unit per pixel. *)
Definition example_calc : MercatorTileCalc :=
  mkCalc "raster" (512, 1024) (0, 0)%Q (mkrez 1 1) (256, 512)
    (mkbox 0 0 512 1024)%Q (2, 2).

(** A box two pixels high that straddles the boundary between tile rows 0
    and 1, and the part of it above the boundary. *)
Definition straddling_box : box Q := (mkbox 255 0 257 1)%Q.
Definition upper_part_box : box Q := (mkbox 256 0 257 1)%Q.

(** Boxes entirely to the left and entirely to the right of the raster. *)
Definition left_outside_box : box Q := (mkbox 0 (-1000) 100 (-900))%Q.
Definition right_outside_box : box Q := (mkbox 0 2000 100 2100)%Q.

End TileCalcSpec.

Module TileStoreSpec.
Import TileCalc TileStore.

(** A 4 x 4 raster in 2 x 2 tiles, world origin at pixel (0, 0). *)
Definition example_data : list (list Z) :=
  [[0; 1; 2; 3]; [10; 11; 12; 13]; [20; 21; 22; 23]; [30; 31; 32; 33]].

Definition small_calc : MercatorTileCalc :=
  mkCalc "flat" (4, 4) (0, 0)%Q (mkrez 1 1) (2, 2) (mkbox 0 0 4 4)%Q (2, 2).

Definition example_store : FlatFileTileSet :=
  mkStore example_data "flat" ∅ small_calc.

(** A GL context in which no texture has been allocated yet. *)
Definition fresh_gl : GL := mkGL 1 ∅ [].

Definition example_world : world := mkWorld example_store fresh_gl.

(** The same store once tile (0, 0) has been activated as texture 1. *)
Definition active_world : world :=
  mkWorld (mkStore example_data "flat" {[ (0, 0) := 1 ]} small_calc)
          (mkGL 2 {[ 1 ]} [GenTextures 1; BindTexture 1; TexSubImage2D]).

(** Rows [iy*th, (iy+1)*th) and columns [ix*tw, (ix+1)*tw) of [data]. *)
Definition tile_window {A} (data : list (list A)) (tile_shape : Z * Z)
    (iy ix : Z) : list (list A) :=
  let '(th, tw) := tile_shape in
  List.map (fun row => firstn (Z.to_nat tw) (skipn (Z.to_nat (ix * tw)) row))
           (firstn (Z.to_nat th) (skipn (Z.to_nat (iy * th)) data)).

(** Release-before-removal: in no world that [deactivate] goes through is
    the entry of the tile missing from [_active] while its texture is still
    allocated. *)
Definition release_before_removal (tile_y tile_x : Z) (w : world) : Prop :=
  forall t_ tr w',
    _active (store w) !! (tile_y, tile_x) = Some t_ ->
    deactivate_trace tile_y tile_x w = Ok tr ->
    In w' tr ->
    ~ (_active (store w') !! (tile_y, tile_x) = None /\ t_ ∈ gl_live (gl w')).

End TileStoreSpec.

Module MapWidgetSpec.
Import MapWidget.

Definition layer_A : Layer := 0%nat.
Definition layer_B : Layer := 1%nat.


(** A frame in which [paint] returns [True] for exactly the layers in [ds]. *)
Definition paint_true_on (ds : list Layer) : Layer -> bool :=
  fun x => mem x ds.



End MapWidgetSpec.

(** ** SIFTMainMapWidget: viewport, animation and mouse activities *)

Module MapView.

(** Exceptions of this part of the widget: those of [Py], and three more. *)
Inductive view_exn : Type :=
| PyExn (e : exn)
| UnboundLocalError
| IndexError
| AttributeError.

Inductive res (A : Type) : Type :=
| Returns (a : A)
| Raises (e : view_exn).
Arguments Returns {A} a.
Arguments Raises {A} e.

(** Major mouse activities.  [UserPanningMap] carries [self.lx, self.ly],
    which exist only once one of its handlers has assigned them. *)
Inductive activity : Type :=
| Idling
| Animating
| UserPanningMap (lxy : option (Z * Z))
| UserZoomingMap
| UserZoomingRegion.

(** The fields of the widget this part reads and writes.  [size] is
    [(width, height)] in pixels.  [_activity_stack] is kept top first: its
    head is [self._activity_stack[-1]], [append] conses and [pop] drops the
    head.  [projection] records the box last handed to [ortho] by
    [update_proj]; [update_requests] counts the calls of [self.update()]. *)
Record canvas : Type := mkCanvas {
  size : Z * Z;
  viewport : box Q;
  projection : box Q;
  _activity_stack : list activity;
  _animating : bool;
  _frame_number : Z;
  animation_timer_running : bool;
  update_requests : nat
}.

Definition set_viewport (vp : box Q) (self : canvas) : canvas :=
  mkCanvas (size self) vp (projection self) (_activity_stack self)
    (_animating self) (_frame_number self) (animation_timer_running self)
    (update_requests self).

Definition set_projection (p : box Q) (self : canvas) : canvas :=
  mkCanvas (size self) (viewport self) p (_activity_stack self)
    (_animating self) (_frame_number self) (animation_timer_running self)
    (update_requests self).

Definition set_stack (st : list activity) (self : canvas) : canvas :=
  mkCanvas (size self) (viewport self) (projection self) st
    (_animating self) (_frame_number self) (animation_timer_running self)
    (update_requests self).

(** [self.update()] *)
Definition update (self : canvas) : canvas :=
  mkCanvas (size self) (viewport self) (projection self) (_activity_stack self)
    (_animating self) (_frame_number self) (animation_timer_running self)
    (S (update_requests self)).

(** [update_proj]: computes [float(self.size[1]) / float(self.size[0])] and
    hands the viewport to vispy's [ortho], which asserts [right != left] and
    then [bottom != top] before it builds the matrix. *)
Definition update_proj (self : canvas) : res unit * canvas :=
  if fst (size self) =? 0 then (Raises (PyExn ZeroDivisionError), self)
  else if Qeq_bool (r (viewport self)) (l (viewport self)) then
    (Raises (PyExn AssertionError), self)
  else if Qeq_bool (t (viewport self)) (b (viewport self)) then
    (Raises (PyExn AssertionError), self)
  else (Returns tt, set_projection (viewport self) self).

(** [panViewport(pdy, pdx, wdy, wdx)].  The test
    [(pdy, pdx) is not (None, None)] compares a freshly built tuple with
    another object by identity and is always true, so the pixel branch is
    always taken. *)
Definition panViewport (pdy pdx : option Z) (wdy wdx : option Q)
    (self : canvas) : res (box Q) * canvas :=
  let '(pw, ph) := size self in
  let wh := (t (viewport self) - b (viewport self))%Q in
  let ww := (r (viewport self) - l (viewport self))%Q in
  match pdy with
  | None => (Raises (PyExn TypeError), self)            (* float(None) *)
  | Some pdy =>
    if ph =? 0 then (Raises (PyExn ZeroDivisionError), self) else
    let wdy := (float pdy / float ph * wh)%Q in
    match pdx with
    | None => (Raises (PyExn TypeError), self)
    | Some pdx =>
      if pw =? 0 then (Raises (PyExn ZeroDivisionError), self) else
      let wdx := (float pdx / float pw * ww)%Q in
      let nvp :=
        {| b := (b (viewport self) + wdy)%Q; t := (t (viewport self) + wdy)%Q;
           l := (l (viewport self) + wdx)%Q; r := (r (viewport self) + wdx)%Q |} in
      let self := set_viewport nvp self in
      match update_proj self with
      | (Raises e, self) => (Raises e, self)
      | (Returns _, self) =>
          let self := update self in
          (Returns (viewport self), self)
      end
    end
  end.

(** [zoomViewport(pdz, wdz)].  [wdy] is bound only in the [pdz is not None]
    branch, and [wdz] is never read. *)
Definition zoomViewport (pdz : option Z) (wdz : option Q)
    (self : canvas) : res unit * canvas :=
  let vp := viewport self in
  match pdz with
  | None => (Raises UnboundLocalError, self)
  | Some pdz =>
    let '(pw, ph) := size self in
    let wh := (t vp - b vp)%Q in
    let ww := (r vp - l vp)%Q in
    if ph =? 0 then (Raises (PyExn ZeroDivisionError), self) else
    let wdy := (float pdz / float ph * wh)%Q in
    if pw =? 0 then (Raises (PyExn ZeroDivisionError), self) else
    let b' := (b vp + wdy)%Q in
    let t' := (t vp - wdy)%Q in
    if Qeq_bool wh 0 then (Raises (PyExn ZeroDivisionError), self) else
    let wdx := (ww / wh * wdy)%Q in
    let l' := (l vp + wdx)%Q in
    let r' := (r vp - wdx)%Q in
    let nvp := {| b := b'; t := t'; l := l'; r := r' |} in
    let self := set_viewport nvp self in
    match update_proj self with
    | (Raises e, self) => (Raises e, self)
    | (Returns _, self) => (Returns tt, update self)
    end
  end.

(** [next_frame(event, frame_number)] *)
Definition next_frame (frame_number : option Z) (self : canvas) : canvas :=
  let frame :=
    match frame_number with
    | Some n => n
    | None => _frame_number self + 1
    end in
  update
    (mkCanvas (size self) (viewport self) (projection self)
       (_activity_stack self) (_animating self) frame
       (animation_timer_running self) (update_requests self)).

(** [set_animating(animating)] *)
Definition set_animating (animating : option bool) (self : canvas) : canvas :=
  let animating :=
    match animating with
    | None => negb (_animating self)
    | Some a => a
    end in
  if animating && negb (_animating self) then
    mkCanvas (size self) (viewport self) (projection self)
      (_activity_stack self) true (_frame_number self) true
      (update_requests self)
  else if negb animating && _animating self then
    mkCanvas (size self) (viewport self) (projection self)
      (_activity_stack self) false 0 false (update_requests self)
  else self.

(** [on_key_release(key)], on [key.text] *)
Definition on_key_release (key_text : string) (self : canvas) : canvas :=
  if String.eqb key_text "a" then set_animating None self else self.

(** *** Activities *)

Record mouse_event : Type := mkEvent { ev_x : Z; ev_y : Z; ev_delta : Z }.

(** What a handler returns: [None] (status quo), [False] (dismiss me), or
    the activity to send to. *)
Inductive reply : Type :=
| StatusQuo
| Dismiss
| SendTo (a : activity).

(** A handler returns its reply and the activity object as it has left
    itself, and acts on the widget. *)
Definition handler : Type :=
  activity -> mouse_event -> canvas -> res (reply * activity) * canvas.

Definition mouseReleaseEvent : handler := fun self event main =>
  match self with
  | UserPanningMap _ => (Returns (Dismiss, self), main)
  | UserZoomingMap => (Returns (Dismiss, self), main)
  | UserZoomingRegion => (Returns (Dismiss, self), main)
  | Idling | Animating => (Returns (StatusQuo, self), main)
  end.

Definition mouseMoveEvent : handler := fun self event main =>
  match self with
  | UserPanningMap lxy =>
      let x := ev_x event in
      let y := ev_y event in
      match lxy with
      | None => (Raises AttributeError, main)
      | Some (lx, ly) =>
          let pdx := lx - x in
          let pdy := y - ly in
          match panViewport (Some pdy) (Some pdx) None None main with
          | (Raises e, main) => (Raises e, main)
          | (Returns _, main) =>
              (Returns (StatusQuo, UserPanningMap (Some (x, y))), main)
          end
      end
  | UserZoomingMap => (Returns (Dismiss, self), main)
  | UserZoomingRegion => (Returns (StatusQuo, self), main)
  | Idling | Animating => (Returns (StatusQuo, self), main)
  end.

Definition mousePressEvent : handler := fun self event main =>
  match self with
  | UserPanningMap _ =>
      (Returns (StatusQuo, UserPanningMap (Some (ev_x event, ev_y event))), main)
  | UserZoomingMap => (Returns (Dismiss, self), main)
  | UserZoomingRegion => (Returns (Dismiss, self), main)
  | Idling | Animating => (Returns (SendTo (UserPanningMap None), self), main)
  end.

Definition wheelEvent : handler := fun self event main =>
  match self with
  | UserZoomingMap =>
      match zoomViewport (Some (ev_delta event)) None main with
      | (Raises e, main) => (Raises e, main)
      | (Returns _, main) => (Returns (StatusQuo, self), main)
      end
  | Idling | Animating => (Returns (SendTo UserZoomingMap, self), main)
  | UserPanningMap _ | UserZoomingRegion => (Returns (StatusQuo, self), main)
  end.

(** The loop shared by [on_mouse_release], [on_mouse_move], [on_mouse_press]
    and [on_mouse_wheel]: ask the current activity, pop it on [False], push
    the new one otherwise, until an activity answers [None].  [fuel] bounds
    the number of iterations; [None] means the bound was reached. *)
Fixpoint dispatch (fuel : nat) (h : handler) (event : mouse_event)
    (self : canvas) : option (res unit * canvas) :=
  match fuel with
  | O => None
  | S fuel =>
      match _activity_stack self with
      | [] => Some (Raises IndexError, self)
      | act :: below =>
          match h act event self with
          | (Raises e, self) => Some (Raises e, self)
          | (Returns (StatusQuo, act), self) =>
              Some (Returns tt, set_stack (act :: below) self)
          | (Returns (Dismiss, act), self) =>
              dispatch fuel h event (set_stack below self)
          | (Returns (SendTo newact, act), self) =>
              dispatch fuel h event (set_stack (newact :: act :: below) self)
          end
      end
  end.

Definition on_mouse_release (fuel : nat) := dispatch fuel mouseReleaseEvent.
Definition on_mouse_move (fuel : nat) := dispatch fuel mouseMoveEvent.
Definition on_mouse_press (fuel : nat) := dispatch fuel mousePressEvent.
Definition on_mouse_wheel (fuel : nat) := dispatch fuel wheelEvent.

End MapView.

(** ** Further vocabulary *)

Module ExtraSpec.
Import TileCalc TileCalcSpec TileStore MapWidget MapView.

(** Component-wise equality of two boxes of rationals. *)
Definition box_eq (B1 B2 : box Q) : Prop :=
  (b B1 == b B2)%Q /\ (l B1 == l B2)%Q /\ (t B1 == t B2)%Q /\ (r B1 == r B2)%Q.

(** Component-wise order on margins. *)
Definition margin_le (X1 X2 : box Z) : Prop :=
  b X1 <= b X2 /\ l X1 <= l X2 /\ t X1 <= t X2 /\ r X1 <= r X2.

(** The second half of [visible_tiles] ("now add the extras" and "truncate
    to the available tiles"), as a function of the first tile
    [(tiy0, tix0)] and the tile counts [(nth, ntw)] that the rounding has
    produced. *)
Definition extras_and_truncation (tiy0 tix0 nth ntw : Z) (X : box Z)
    (tiles_avail : Z * Z) : box Z :=
  (* now add the extras *)
  let '(tiy0, nth) :=
    if 0 <? b X then (tiy0 - b X, nth + b X) else (tiy0, nth) in
  let '(tix0, ntw) :=
    if 0 <? l X then (tix0 - l X, ntw + l X) else (tix0, ntw) in
  let nth := if 0 <? t X then nth + t X else nth in
  let ntw := if 0 <? r X then ntw + r X else ntw in
  (* truncate to the available tiles *)
  let '(tix0, ntw) := if tix0 <? 0 then (0, ntw + tix0) else (tix0, ntw) in
  let '(tiy0, nth) := if tiy0 <? 0 then (0, nth + tiy0) else (tiy0, nth) in
  let '(ath, atw) := tiles_avail in
  let xth := ath - (tiy0 + nth) in
  let nth := if xth <? 0 then nth + xth else nth in
  let xtw := atw - (tix0 + ntw) in
  let ntw := if xtw <? 0 then ntw + xtw else ntw in
  {| b := tiy0; l := tix0; t := tiy0 + nth; r := tix0 + ntw |}.

(** A sequence of frames, each with its [paint] results and drawing plan. *)
Definition frame : Type := (Layer -> bool) * list Layer.

Definition draw_frames (frames : list frame) (self : SIFTMainMapWidget)
    : SIFTMainMapWidget :=
  fold_left (fun s f => on_draw (fst f) (snd f) s) frames self.

(** In frame [f] some layer's [paint] returned [True]. *)
Definition dirty (f : frame) : bool := existsb (fst f) (snd f).

(** The activity stacks that occur: idling, or idling with a pan or a zoom
    in progress on top. *)
Definition settled (st : list activity) : Prop :=
  st = [Idling] \/
  (exists xy, st = [UserPanningMap (Some xy); Idling]) \/
  st = [UserZoomingMap; Idling].

(** Mouse input, and the widget's reaction to it. *)
Inductive mouse : Type :=
| Press (e : mouse_event)
| Move (e : mouse_event)
| Release (e : mouse_event)
| Wheel (e : mouse_event).

Definition on_mouse (fuel : nat) (m : mouse) (self : canvas)
    : option (res unit * canvas) :=
  match m with
  | Press e => on_mouse_press fuel e self
  | Move e => on_mouse_move fuel e self
  | Release e => on_mouse_release fuel e self
  | Wheel e => on_mouse_wheel fuel e self
  end.

(** A handler that sends on only to an activity which, asked the same
    kind of event, stays put or raises. *)
Definition tame (h : handler) : Prop :=
  forall a ev m n a' m',
    h a ev m = (Returns (SendTo n, a'), m') ->
    forall ev2 m2,
      (exists a2 m3, h n ev2 m2 = (Returns (StatusQuo, a2), m3)) \/
      (exists e m3, h n ev2 m2 = (Raises e, m3)).

(** The world displacement of a pan by [pdy, pdx] pixels. *)
Definition pan_by (self : canvas) (pdy pdx : Z) : box Q :=
  let wdy := (float pdy / float (snd (size self))
              * (t (viewport self) - b (viewport self)))%Q in
  let wdx := (float pdx / float (fst (size self))
              * (r (viewport self) - l (viewport self)))%Q in
  {| b := (b (viewport self) + wdy)%Q; l := (l (viewport self) + wdx)%Q;
     t := (t (viewport self) + wdy)%Q; r := (r (viewport self) + wdx)%Q |}.

(** The 4 x 4 raster in 2 x 2 tiles with the world origin at pixel (1, 1). *)
Definition unit_calc : MercatorTileCalc :=
  mkCalc "flat" (4, 4) (1, 1)%Q (mkrez 1 1) (2, 2) (mkbox (-1) (-1) 3 3)%Q (2, 2).

Definition unit_store : FlatFileTileSet :=
  mkStore TileStoreSpec.example_data "flat" ∅ unit_calc.

Definition unit_world : world := mkWorld unit_store TileStoreSpec.fresh_gl.

(** A 800 x 600 widget showing the world box [-400, 400] x [-300, 300],
    idling. *)
Definition example_canvas : canvas :=
  mkCanvas (800, 600) (mkbox (-300) (-400) 300 400)%Q
           (mkbox (-300) (-400) 300 400)%Q [Idling] false 0 false 0.

End ExtraSpec.

(** * Properties *)

(** ** Arithmetic helpers *)

Lemma Qgt_bool_true (x y : Q) : Qgt_bool x y = true <-> (y < x)%Q.
Proof.
  unfold Qgt_bool. rewrite negb_true_iff.
  split; intros H.
  - apply Qnot_le_lt. intros Hle. apply Qle_bool_iff in Hle. congruence.
  - destruct (Qle_bool x y) eqn:E; [|reflexivity].
    apply Qle_bool_iff in E. exfalso. exact (Qlt_not_le _ _ H E).
Qed.

Lemma py_fdiv_ok (x y : Q) : ~ (y == 0)%Q -> py_fdiv x y = Ok (x / y)%Q.
Proof.
  intros Hy. unfold py_fdiv.
  destruct (Qeq_bool y 0) eqn:E; [|reflexivity].
  apply Qeq_bool_eq in E. contradiction.
Qed.

Lemma float_nonzero (n : Z) : n <> 0 -> ~ (float n == 0)%Q.
Proof.
  unfold float, Qeq. simpl. lia.
Qed.

Lemma Qpos_nonzero (x : Q) : (0 < x)%Q -> ~ (x == 0)%Q.
Proof.
  intros H E. rewrite E in H. exact (Qlt_irrefl _ H).
Qed.

(** Converting a pixel offset to world coordinates and back. *)
Lemma world_pixel_cancel (e p d : Q) : ~ (d == 0)%Q -> ((e + p * d - e) / d == p)%Q.
Proof. intros Hd. field. exact Hd. Qed.

Lemma py_div_ok (a d : Z) : d <> 0 -> py_div a d = Ok (a / d).
Proof.
  intros H. unfold py_div. destruct (Z.eqb_spec d 0); [contradiction|reflexivity].
Qed.

Lemma py_mod_ok (a d : Z) : d <> 0 -> py_mod a d = Ok (a mod d).
Proof.
  intros H. unfold py_mod. destruct (Z.eqb_spec d 0); [contradiction|reflexivity].
Qed.

(** ** MercatorTileCalc *)

Module TileCalcFacts.
Import TileCalc TileCalcSpec.

Lemma exact_multiple_true (a d : Z) :
  exact_multiple a d = true <-> d <> 0 /\ a mod d = 0.
Proof.
  unfold exact_multiple, py_mod.
  destruct (Z.eqb_spec d 0) as [->|Hd].
  - split; [discriminate | intros [H _]; contradiction].
  - rewrite Z.eqb_eq. tauto.
Qed.

(** Inversion of a successful construction. *)
Lemma init_inv n ps zp rz ts c :
  init n ps zp rz ts = Ok c ->
  (0 < dy rz)%Q /\ (0 < dx rz)%Q /\
  exact_multiple (fst ps) (fst ts) = true /\
  exact_multiple (snd ps) (snd ts) = true /\
  c = mkCalc n ps zp rz ts (extents_of ps zp rz)
        (fst ps / fst ts, snd ps / snd ts).
Proof.
  unfold init. destruct ps as [h w], zp as [zy zx], ts as [th tw]. simpl.
  destruct (Qgt_bool (dy rz) 0) eqn:Ey; simpl; [|discriminate].
  destruct (Qgt_bool (dx rz) 0) eqn:Ex; simpl; [|discriminate].
  unfold exact_multiple, py_div, py_mod.
  destruct (Z.eqb_spec th 0); simpl; [discriminate|].
  destruct (Z.eqb_spec tw 0); simpl; [discriminate|].
  destruct (Z.eqb_spec (h mod th) 0); simpl; [|discriminate].
  destruct (Z.eqb_spec (w mod tw) 0); simpl; [|discriminate].
  intros [= <-].
  apply Qgt_bool_true in Ey. apply Qgt_bool_true in Ex.
  repeat split; assumption.
Qed.

(** A well-formed argument list constructs. *)
Lemma init_ok n ps zp rz ts :
  (0 < dy rz)%Q -> (0 < dx rz)%Q ->
  exact_multiple (fst ps) (fst ts) = true ->
  exact_multiple (snd ps) (snd ts) = true ->
  init n ps zp rz ts =
    Ok (mkCalc n ps zp rz ts (extents_of ps zp rz)
          (fst ps / fst ts, snd ps / snd ts)).
Proof.
  intros Hy Hx Hh Hw.
  apply exact_multiple_true in Hh. apply exact_multiple_true in Hw.
  destruct Hh as [Hth Hh], Hw as [Htw Hw].
  unfold init. destruct ps as [h w], zp as [zy zx], ts as [th tw]. simpl in *.
  apply Qgt_bool_true in Hy. apply Qgt_bool_true in Hx.
  rewrite Hy, Hx. simpl.
  rewrite (py_div_ok h th Hth), (py_div_ok w tw Htw). simpl.
  rewrite (py_mod_ok h th Hth), (py_mod_ok w tw Htw). simpl.
  rewrite Hh, Hw. reflexivity.
Qed.

Lemma init_divisors n ps zp rz ts c :
  init n ps zp rz ts = Ok c -> divisors_nonzero c.
Proof.
  intros H. apply init_inv in H as (Hy & Hx & Hh & Hw & ->).
  apply exact_multiple_true in Hh. apply exact_multiple_true in Hw.
  unfold divisors_nonzero. simpl.
  repeat split; try tauto; apply Qpos_nonzero; assumption.
Qed.

(** [visible_tiles] treats the two axes independently and alike. *)
Lemma visible_tiles_axes (c : MercatorTileCalc) (V : box Q) (X : box Z) :
  divisors_nonzero c ->
  let pv := pixel_view c V in
  let ay := axis_range (b pv) (t pv) (fst (tile_shape c)) (b X) (t X)
              (fst (tiles_avail c)) in
  let ax := axis_range (l pv) (r pv) (snd (tile_shape c)) (l X) (r X)
              (snd (tiles_avail c)) in
  visible_tiles c V X =
    Ok (WELLSAMPLED, {| b := fst ay; l := fst ax; t := snd ay; r := snd ax |}).
Proof.
  intros (Hy & Hx & Hth & Htw). unfold visible_tiles, axis_range, pixel_view.
  destruct (tile_shape c) as [th tw], (tiles_avail c) as [ath atw].
  simpl in Hth, Htw. cbn [fst snd b l t r].
  rewrite !(py_fdiv_ok _ _ Hy), !(py_fdiv_ok _ _ Hx). cbn [bind].
  rewrite !(py_fdiv_ok _ _ (float_nonzero th Hth)).
  rewrite !(py_fdiv_ok _ _ (float_nonzero tw Htw)). cbn [bind].
  repeat match goal with
         | |- context [if ?c then _ else _] => destruct c
         end;
  reflexivity.
Qed.

Lemma axis_range_ext (lo lo' hi hi' : Q) (tsize xlo xhi avail : Z) :
  (lo == lo')%Q -> (hi == hi')%Q ->
  axis_range lo hi tsize xlo xhi avail = axis_range lo' hi' tsize xlo xhi avail.
Proof.
  intros Hlo Hhi. unfold axis_range.
  assert (Qceiling ((hi - lo) / float tsize) = Qceiling ((hi' - lo') / float tsize)) as ->
    by (apply Qceiling_comp; rewrite Hlo, Hhi; reflexivity).
  assert (Qfloor (lo / float tsize) = Qfloor (lo' / float tsize)) as ->
    by (apply Qfloor_comp; rewrite Hlo; reflexivity).
  reflexivity.
Qed.

(** The interval covering tiles [i .. i] exactly, on an axis with [avail]
    tiles of size [tsize], gives the one-tile range [i, i+1). *)
Lemma axis_range_one_tile (tsize avail i : Z) :
  tsize <> 0 -> 0 <= i < avail ->
  axis_range (float (i * tsize)) (float ((i + 1) * tsize)) tsize 0 0 avail
  = (i, i + 1).
Proof.
  intros Hts Hi. unfold axis_range.
  assert (Qceiling ((float ((i + 1) * tsize) - float (i * tsize)) / float tsize) = 1) as ->.
  { transitivity (Qceiling (inject_Z 1)); [apply Qceiling_comp | apply Qceiling_Z].
    pose proof (float_nonzero tsize Hts) as Hnz. unfold float in *.
    rewrite !inject_Z_mult, inject_Z_plus.
    change (inject_Z 1) with 1%Q. field. exact Hnz. }
  assert (Qfloor (float (i * tsize) / float tsize) = i) as ->.
  { transitivity (Qfloor (inject_Z i)); [apply Qfloor_comp | apply Qfloor_Z].
    pose proof (float_nonzero tsize Hts) as Hnz. unfold float in *.
    rewrite inject_Z_mult. field. exact Hnz. }
  simpl.
  destruct (Z.ltb_spec i 0); [lia|].
  destruct (Z.ltb_spec (avail - (i + 1)) 0); [lia|].
  reflexivity.
Qed.

(** The same for the interval as [visible_tiles] obtains it from the world
    box of the tile's footprint. *)
Lemma axis_range_footprint (e d : Q) (tsize avail i : Z) :
  ~ (d == 0)%Q -> tsize <> 0 -> 0 <= i < avail ->
  axis_range ((e + float (i * tsize) * d - e) / d)
             ((e + float ((i + 1) * tsize) * d - e) / d) tsize 0 0 avail
  = (i, i + 1).
Proof.
  intros Hd Hts Hi.
  rewrite (axis_range_ext _ (float (i * tsize)) _ (float ((i + 1) * tsize)))
    by (apply world_pixel_cancel; exact Hd).
  apply axis_range_one_tile; assumption.
Qed.

End TileCalcFacts.

(** Truncation to the available tiles. *)

Module TileCalcClamp.
Import TileCalc TileCalcSpec TileCalcFacts.

Lemma Qdiv_nonneg (x d : Q) : (0 <= x)%Q -> (0 < d)%Q -> (0 <= x / d)%Q.
Proof.
  intros Hx Hd. apply Qle_shift_div_l; [exact Hd|].
  rewrite Qmult_0_l. exact Hx.
Qed.

Lemma float_pos (n : Z) : 0 < n -> (0 < float n)%Q.
Proof. intros H. unfold float, Qlt. simpl. lia. Qed.

(** On one axis: when the pixel interval is non-empty and overlaps the
    raster, the range returned lies inside the available tiles and has a
    non-negative extent, whatever the margins. *)
Lemma axis_range_clamped (lo hi : Q) (tsize xlo xhi avail : Z) :
  0 < tsize -> 0 <= avail ->
  (lo <= hi)%Q -> (lo < float (avail * tsize))%Q -> (0 <= hi)%Q ->
  0 <= fst (axis_range lo hi tsize xlo xhi avail) /\
  fst (axis_range lo hi tsize xlo xhi avail)
    <= snd (axis_range lo hi tsize xlo xhi avail) /\
  snd (axis_range lo hi tsize xlo xhi avail) <= avail.
Proof.
  intros Hts Hav Hlh Hlo Hhi.
  pose proof (float_pos tsize Hts) as Hfp.
  assert (Hn : 0 <= Qceiling ((hi - lo) / float tsize)).
  { change 0 with (Qceiling 0). apply Qceiling_resp_le.
    apply Qdiv_nonneg; [|exact Hfp].
    unfold Qminus. rewrite <- Qle_minus_iff. exact Hlh. }
  assert (Hf : Qfloor (lo / float tsize) < avail).
  { rewrite Zlt_Qlt. eapply Qle_lt_trans; [apply Qfloor_le|].
    apply Qlt_shift_div_r; [exact Hfp|].
    unfold float in *. rewrite <- inject_Z_mult. exact Hlo. }
  assert (Hfn : 0 <= Qfloor (lo / float tsize) + Qceiling ((hi - lo) / float tsize)).
  { assert (H : (0 < inject_Z (Qfloor (lo / float tsize) + 1
                             + Qceiling ((hi - lo) / float tsize)))%Q).
    { eapply Qle_lt_trans; [apply (Qdiv_nonneg hi (float tsize) Hhi Hfp)|].
      rewrite inject_Z_plus.
      assert (E : (hi / float tsize == lo / float tsize + (hi - lo) / float tsize)%Q)
        by (field; apply Qpos_nonzero; exact Hfp).
      rewrite E. apply Qplus_lt_le_compat; [apply Qlt_floor | apply Qle_ceiling]. }
    change 0%Q with (inject_Z 0) in H. rewrite <- Zlt_Qlt in H. lia. }
  unfold axis_range.
  set (f := Qfloor (lo / float tsize)) in *.
  set (n := Qceiling ((hi - lo) / float tsize)) in *.
  repeat match goal with
         | |- context [if ?c <? ?d then _ else _] => destruct (Z.ltb_spec c d)
         end;
  cbn [fst snd]; lia.
Qed.

(** On a constructed calculator with positive tile dimensions and a
    non-negative pixel shape, a world box whose pixel range is non-empty and
    overlaps the raster is answered by a tile-index box inside the available
    tiles, top >= bottom and right >= left, for every margin. *)
Lemma visible_tiles_well_clamped n ps zp rz ts c V X :
  init n ps zp rz ts = Ok c ->
  0 < fst ts -> 0 < snd ts -> 0 <= fst ps -> 0 <= snd ps ->
  (b (pixel_view c V) <= t (pixel_view c V))%Q ->
  (b (pixel_view c V) < float (fst ps))%Q ->
  (0 <= t (pixel_view c V))%Q ->
  (l (pixel_view c V) <= r (pixel_view c V))%Q ->
  (l (pixel_view c V) < float (snd ps))%Q ->
  (0 <= r (pixel_view c V))%Q ->
  exists tiles,
    visible_tiles c V X = Ok (WELLSAMPLED, tiles) /\ well_clamped c tiles.
Proof.
  intros Hinit Hth Htw Hh Hw Hy1 Hy2 Hy3 Hx1 Hx2 Hx3.
  pose proof (init_divisors _ _ _ _ _ _ Hinit) as Hd.
  rewrite (visible_tiles_axes c V X Hd).
  eexists; split; [reflexivity|].
  pose proof (init_inv _ _ _ _ _ _ Hinit) as (_ & _ & Eh & Ew & Hc).
  apply exact_multiple_true in Eh. apply exact_multiple_true in Ew.
  destruct Eh as [Hth0 Eh], Ew as [Htw0 Ew].
  assert (Ha : tiles_avail c = (fst ps / fst ts, snd ps / snd ts))
    by (rewrite Hc; reflexivity).
  assert (Hs : tile_shape c = ts) by (rewrite Hc; reflexivity).
  assert (Ey : fst ps / fst ts * fst ts = fst ps).
  { pose proof (Z.div_mod (fst ps) (fst ts) Hth0) as E.
    rewrite Eh, Z.add_0_r, Z.mul_comm in E. symmetry. exact E. }
  assert (Ex : snd ps / snd ts * snd ts = snd ps).
  { pose proof (Z.div_mod (snd ps) (snd ts) Htw0) as E.
    rewrite Ew, Z.add_0_r, Z.mul_comm in E. symmetry. exact E. }
  unfold well_clamped. rewrite Ha, Hs. cbn [fst snd b l t r].
  assert (Hay : 0 <= fst ps / fst ts) by (apply Z.div_pos; assumption).
  assert (Hax : 0 <= snd ps / snd ts) by (apply Z.div_pos; assumption).
  rewrite <- Ey in Hy2. rewrite <- Ex in Hx2.
  pose proof (axis_range_clamped _ _ (fst ts) (b X) (t X) _ Hth Hay Hy1 Hy2 Hy3)
    as (Y1 & Y2 & Y3).
  pose proof (axis_range_clamped _ _ (snd ts) (l X) (r X) _ Htw Hax Hx1 Hx2 Hx3)
    as (X1 & X2 & X3).
  repeat split; assumption.
Qed.

End TileCalcClamp.

(** Construction, [tiles_avail] and the sampling state. *)

Module TileCalcClaims.
Import TileCalc TileCalcSpec TileCalcFacts.

Lemma example_calc_init :
  init "raster" (512, 1024) (0, 0)%Q (mkrez 1 1) (256, 512) = Ok example_calc.
Proof. reflexivity. Qed.

Lemma malformed_iff_raises n ps zp rz ts :
  raises (init n ps zp rz ts) <-> malformed ps rz ts.
Proof.
  split.
  - intros [e He]. unfold malformed.
    destruct (Qlt_le_dec 0 (dy rz)) as [Hy|Hy]; [|tauto].
    destruct (Qlt_le_dec 0 (dx rz)) as [Hx|Hx]; [|tauto].
    destruct (exact_multiple (fst ps) (fst ts)) eqn:Eh; [|tauto].
    destruct (exact_multiple (snd ps) (snd ts)) eqn:Ew; [|tauto].
    rewrite (init_ok n ps zp rz ts Hy Hx Eh Ew) in He. discriminate.
  - intros Hm. destruct (init n ps zp rz ts) as [c|e] eqn:E; [|exists e; reflexivity].
    exfalso. apply init_inv in E as (Hy & Hx & Hh & Hw & _).
    destruct Hm as [H|[H|[H|H]]].
    + exact (Qlt_not_le _ _ Hy H).
    + exact (Qlt_not_le _ _ Hx H).
    + congruence.
    + congruence.
Qed.

(** C6.  Construction of a [MercatorTileCalc] raises exactly when the raster
    dimensions are malformed (a resolution [dy <= 0] or [dx <= 0], or a pixel
    shape that is not an exact multiple of the tile shape on some axis).  For
    well-formed arguments construction succeeds, stores the arguments
    unchanged, and [visible_tiles] on the constructed calculator never
    raises: no violation is left to be found at render time. *)
Theorem init_raises_iff_malformed n ps zp rz ts :
  (raises (init n ps zp rz ts) <-> malformed ps rz ts) /\
  (~ malformed ps rz ts ->
   exists c, init n ps zp rz ts = Ok c /\
     pixel_shape c = ps /\ pixel_rez c = rz /\ tile_shape c = ts /\
     forall V X, exists res, visible_tiles c V X = Ok res).
Proof.
  split; [apply malformed_iff_raises|].
  intros Hwf.
  destruct (init n ps zp rz ts) as [c|e] eqn:E.
  - exists c. split; [reflexivity|].
    pose proof (init_divisors _ _ _ _ _ _ E) as Hd.
    apply init_inv in E as (_ & _ & _ & _ & ->). simpl.
    repeat split; try reflexivity.
    intros V X. rewrite (visible_tiles_axes _ V X Hd). eexists; reflexivity.
  - exfalso. apply Hwf. apply (malformed_iff_raises n ps zp rz ts).
    exists e; assumption.
Qed.

Lemma init_raises_iff_malformed_witness :
  ~ malformed (512, 1024) (mkrez 1 1) (256, 512) /\
  exists c, init "raster" (512, 1024) (0, 0)%Q (mkrez 1 1) (256, 512) = Ok c /\
     pixel_shape c = (512, 1024) /\ pixel_rez c = mkrez 1 1 /\
     tile_shape c = (256, 512) /\
     forall V X, exists res, visible_tiles c V X = Ok res.
Proof.
  assert (Hwf : ~ malformed (512, 1024) (mkrez 1 1) (256, 512)).
  { intros [H|[H|[H|H]]]; vm_compute in H; try discriminate; apply H; reflexivity. }
  split; [exact Hwf|].
  exact (proj2 (init_raises_iff_malformed "raster" (512, 1024) (0, 0)%Q
                  (mkrez 1 1) (256, 512)) Hwf).
Defined.

(** A world box that covers exactly the pixel footprint of an existing tile
    selects, with zero margin, exactly that tile. *)
Lemma footprint_selects_tile n ps zp rz ts c iy ix :
  init n ps zp rz ts = Ok c -> in_bounds c iy ix ->
  visible_tiles c (tile_footprint_world c iy ix) zero_margin
  = Ok (WELLSAMPLED, mkbox iy ix (iy + 1) (ix + 1)).
Proof.
  intros Hinit [Hy Hx].
  pose proof (init_divisors _ _ _ _ _ _ Hinit) as Hd.
  rewrite (visible_tiles_axes _ _ _ Hd).
  destruct Hd as (Hdy & Hdx & Hth & Htw).
  unfold pixel_view, tile_footprint_world.
  destruct (tile_shape c) as [th tw]. cbn [fst snd b l t r zero_margin] in *.
  rewrite (axis_range_footprint _ _ th _ iy Hdy Hth Hy).
  rewrite (axis_range_footprint _ _ tw _ ix Hdx Htw Hx).
  reflexivity.
Qed.

(** C7.  On a constructed calculator [tiles_avail] is [pixel_shape] divided
    by [tile_shape] component-wise, and the division is exact.  For a raster
    of shape (512, 1024) in tiles of shape (256, 512) this is (2, 2), and the
    world box covering exactly the pixel footprint of the bottom-left tile
    yields, with zero margin, the one-tile index box (0,0)-(1,1). *)
Theorem tiles_avail_exact n ps zp rz ts c :
  init n ps zp rz ts = Ok c ->
  tiles_avail c = (fst ps / fst ts, snd ps / snd ts) /\
  fst (tiles_avail c) * fst ts = fst ps /\
  snd (tiles_avail c) * snd ts = snd ps /\
  (ps = (512, 1024) -> ts = (256, 512) ->
   tiles_avail c = (2, 2) /\
   visible_tiles c (tile_footprint_world c 0 0) zero_margin
   = Ok (WELLSAMPLED, mkbox 0 0 1 1)).
Proof.
  intros Hinit.
  pose proof (init_inv _ _ _ _ _ _ Hinit) as (_ & _ & Hh & Hw & Hc).
  apply exact_multiple_true in Hh. apply exact_multiple_true in Hw.
  destruct Hh as [Hth Hh], Hw as [Htw Hw].
  assert (Hta : tiles_avail c = (fst ps / fst ts, snd ps / snd ts))
    by (rewrite Hc; reflexivity).
  rewrite Hta. cbn [fst snd].
  split; [reflexivity|].
  split; [|split].
  - pose proof (Z.div_mod (fst ps) (fst ts) Hth) as E.
    rewrite Hh, Z.add_0_r, Z.mul_comm in E. symmetry. exact E.
  - pose proof (Z.div_mod (snd ps) (snd ts) Htw) as E.
    rewrite Hw, Z.add_0_r, Z.mul_comm in E. symmetry. exact E.
  - intros -> ->. split; [reflexivity|].
    apply (footprint_selects_tile _ _ _ _ _ _ 0 0 Hinit).
    unfold in_bounds. rewrite Hta. repeat split; vm_compute; congruence.
Qed.

Lemma tiles_avail_exact_witness :
  init "raster" (512, 1024) (0, 0)%Q (mkrez 1 1) (256, 512) = Ok example_calc /\
  tiles_avail example_calc = (2, 2) /\
  visible_tiles example_calc (tile_footprint_world example_calc 0 0) zero_margin
  = Ok (WELLSAMPLED, mkbox 0 0 1 1).
Proof.
  split; [reflexivity|].
  exact (proj2 (proj2 (proj2
    (tiles_avail_exact "raster" (512, 1024) (0, 0)%Q (mkrez 1 1) (256, 512)
       example_calc eq_refl))) eq_refl eq_refl).
Defined.

(** C10.  On a constructed calculator [visible_tiles] returns, for every
    world box and every margin, the sampling state [WELLSAMPLED]; the two
    other classifications are never produced. *)
Theorem sampling_state_wellsampled n ps zp rz ts c V X :
  init n ps zp rz ts = Ok c ->
  (exists tiles, visible_tiles c V X = Ok (WELLSAMPLED, tiles)) /\
  (forall s tiles, visible_tiles c V X = Ok (s, tiles) ->
     s = WELLSAMPLED /\ s <> OVERSAMPLED /\ s <> UNDERSAMPLED).
Proof.
  intros Hinit.
  pose proof (init_divisors _ _ _ _ _ _ Hinit) as Hd.
  rewrite (visible_tiles_axes _ V X Hd).
  split; [eexists; reflexivity|].
  intros s tiles [= <- _]. repeat split; discriminate.
Qed.

Lemma sampling_state_wellsampled_witness :
  init "raster" (512, 1024) (0, 0)%Q (mkrez 1 1) (256, 512) = Ok example_calc /\
  (exists tiles,
     visible_tiles example_calc straddling_box zero_margin = Ok (WELLSAMPLED, tiles)) /\
  (forall s tiles,
     visible_tiles example_calc straddling_box zero_margin = Ok (s, tiles) ->
     s = WELLSAMPLED /\ s <> OVERSAMPLED /\ s <> UNDERSAMPLED).
Proof.
  split; [reflexivity|].
  exact (sampling_state_wellsampled "raster" (512, 1024) (0, 0)%Q (mkrez 1 1)
           (256, 512) example_calc straddling_box zero_margin eq_refl).
Defined.

End TileCalcClaims.

(** Inputs on which [visible_tiles] departs from its contract. *)

Module TileCalcDefects.
Import TileCalc TileCalcSpec TileCalcFacts.

(** C1.  The tile range is computed as [floor(bottom / th)] tiles up,
    [ceil((top - bottom) / th)] tiles high, which can stop one tile short of
    the top edge.  On the 512 x 1024 raster the two-pixel-high box
    [255, 257] x [0, 1] overlaps the raster and reaches into tile row 1
    (pixels 256..511), yet [visible_tiles] with zero margin returns the index
    box (0,0)-(1,1): tile (1, 0) exists, its footprint meets the requested
    pixel range, and it is not covered. *)
Theorem straddling_box_undercovered :
  init "raster" (512, 1024) (0, 0)%Q (mkrez 1 1) (256, 512) = Ok example_calc /\
  boxes_intersect straddling_box (extents_box example_calc) /\
  visible_tiles example_calc straddling_box zero_margin
    = Ok (WELLSAMPLED, mkbox 0 0 1 1) /\
  in_bounds example_calc 1 0 /\
  tile_intersects example_calc (pixel_view example_calc straddling_box) 1 0 /\
  ~ covers (mkbox 0 0 1 1) 1 0.
Proof.
  split; [reflexivity|].
  split; [repeat split; vm_compute; congruence|].
  split; [reflexivity|].
  split; [repeat split; vm_compute; congruence|].
  split; [repeat split; vm_compute; congruence|].
  unfold covers. simpl. lia.
Qed.

(** C2.  The truncation to the available tiles does not handle a world box
    that lies entirely outside the raster.  On the 512 x 1024 raster (2 x 2
    tiles) a box entirely to the left yields the index box
    b=0, l=0, t=1, r=-1 (a negative index and a negative extent), and a box
    entirely to the right yields b=0, l=3, t=1, r=2 (first column 3 of 2, and
    again a negative extent). *)
Theorem outside_box_not_clamped :
  init "raster" (512, 1024) (0, 0)%Q (mkrez 1 1) (256, 512) = Ok example_calc /\
  ~ boxes_intersect left_outside_box (extents_box example_calc) /\
  ~ boxes_intersect right_outside_box (extents_box example_calc) /\
  visible_tiles example_calc left_outside_box zero_margin
    = Ok (WELLSAMPLED, mkbox 0 0 1 (-1)) /\
  visible_tiles example_calc right_outside_box zero_margin
    = Ok (WELLSAMPLED, mkbox 0 3 1 2) /\
  ~ well_clamped example_calc (mkbox 0 0 1 (-1)) /\
  ~ well_clamped example_calc (mkbox 0 3 1 2).
Proof.
  split; [reflexivity|].
  split; [intros (_ & _ & _ & H); vm_compute in H; discriminate|].
  split; [intros (_ & _ & H & _); vm_compute in H; discriminate|].
  split; [reflexivity|].
  split; [reflexivity|].
  split; unfold well_clamped; simpl; lia.
Qed.

(** C3.  Enlarging the world box can move the returned tile box instead of
    growing it.  On the 512 x 1024 raster the box [256, 257] x [0, 1] gives
    the index box (1,0)-(2,1); the larger box [255, 257] x [0, 1], which
    contains it, gives (0,0)-(1,1), which does not contain (1,0)-(2,1). *)
Theorem enlarging_box_loses_tile :
  init "raster" (512, 1024) (0, 0)%Q (mkrez 1 1) (256, 512) = Ok example_calc /\
  box_within upper_part_box straddling_box /\
  visible_tiles example_calc upper_part_box zero_margin
    = Ok (WELLSAMPLED, mkbox 1 0 2 1) /\
  visible_tiles example_calc straddling_box zero_margin
    = Ok (WELLSAMPLED, mkbox 0 0 1 1) /\
  ~ tiles_within (mkbox 1 0 2 1) (mkbox 0 0 1 1).
Proof.
  split; [reflexivity|].
  split; [repeat split; vm_compute; congruence|].
  split; [reflexivity|].
  split; [reflexivity|].
  unfold tiles_within. simpl. lia.
Qed.

End TileCalcDefects.

(** ** FlatFileTileSet *)

Module TileStoreFacts.
Import TileCalc TileCalcSpec TileStore TileStoreSpec.

Lemma example_store_init :
  TileStore.init "flat" example_data (0, 0)%Q (mkrez 1 1) (2, 2) = Ok example_store.
Proof. reflexivity. Qed.

(** A lookup of an active tile is a pure cache hit: the handle is returned
    and neither the store nor the GL context changes. *)
Lemma getitem_hit (k : Z * Z) (w : world) (texid : Z) :
  _active (store w) !! k = Some texid ->
  getitem k w = (Ok (TexId texid), w).
Proof. intros H. unfold getitem. rewrite H. reflexivity. Qed.

(** A lookup of an inactive tile that does not raise activates the tile:
    one allocation, one upload, the new texture registered under the key,
    and [None] handed back. *)
Lemma getitem_miss (k : Z * Z) (w w1 : world) (v : pyret) :
  _active (store w) !! k = None ->
  getitem k w = (Ok v, w1) ->
  v = PyNone /\
  _active (store w1) !! k = Some (gl_next (gl w)) /\
  allocations (gl w1) = S (allocations (gl w)) /\
  uploads (gl w1) = S (uploads (gl w)).
Proof.
  intros Hk. unfold getitem. rewrite Hk. unfold activate. simpl.
  destruct (activate_slice (store w) k) as [npslice|e]; [|discriminate].
  intros [= <- <-]. simpl.
  split; [reflexivity|].
  split; [apply lookup_insert_eq|].
  unfold allocations, uploads. simpl.
  rewrite !List.filter_app, !List.length_app. simpl. lia.
Qed.

(** Two lookups in a row: the second is a cache hit that changes nothing,
    but the two calls do not hand back the same value. *)
Lemma getitem_twice (k : Z * Z) (w w1 : world) (v : pyret) :
  _active (store w) !! k = None ->
  getitem k w = (Ok v, w1) ->
  v = PyNone /\ getitem k w1 = (Ok (TexId (gl_next (gl w))), w1).
Proof.
  intros Hk Hg. destruct (getitem_miss k w w1 v Hk Hg) as (Hv & Ha & _).
  split; [exact Hv|]. apply getitem_hit. exact Ha.
Qed.

(** C4.  The first lookup of tile (0, 0) in a freshly built store activates
    the tile as texture 1 but hands back [None], because [activate] has no
    [return] statement; the second lookup is a cache hit that hands back
    texture 1 and touches neither the store nor the GL context.  One
    allocation and one upload are performed in all, but the two calls do not
    return the same handle. *)
Theorem getitem_first_returns_none :
  TileStore.init "flat" example_data (0, 0)%Q (mkrez 1 1) (2, 2) = Ok example_store /\
  in_bounds (_calc example_store) 0 0 /\
  getitem (0, 0) example_world = (Ok PyNone, active_world) /\
  getitem (0, 0) active_world = (Ok (TexId 1), active_world) /\
  allocations (gl active_world) = 1%nat /\
  uploads (gl active_world) = 1%nat /\
  PyNone <> TexId 1.
Proof.
  split; [reflexivity|].
  split; [repeat split; vm_compute; congruence|].
  split; [vm_compute; reflexivity|].
  split; [apply getitem_hit; vm_compute; reflexivity|].
  repeat split; discriminate.
Qed.

Lemma slice_in_range {A} (xs : list A) (s e : Z) :
  0 <= s <= e -> e <= Z.of_nat (length xs) ->
  slice xs s e = firstn (Z.to_nat (e - s)) (skipn (Z.to_nat s) xs).
Proof.
  intros Hs He. unfold slice, norm_bound.
  destruct (Z.ltb_spec s 0); [lia|].
  destruct (Z.ltb_spec e 0); [lia|].
  rewrite !Z.min_r, !Z.max_r by lia. reflexivity.
Qed.

Lemma In_window {A} (x : A) (xs : list A) (n m : nat) :
  In x (firstn n (skipn m xs)) -> In x xs.
Proof.
  intros H.
  rewrite <- (firstn_skipn m xs). apply in_or_app. right.
  rewrite <- (firstn_skipn n (skipn m xs)). apply in_or_app. left. exact H.
Qed.

(** The tile-slice computation reads exactly the rows and columns of the
    tile, whatever the zero point. *)
Lemma tile_pixels_window {A} (c : MercatorTileCalc) (data : list (list A)) (iy ix : Z) :
  0 < fst (tile_shape c) -> 0 < snd (tile_shape c) ->
  0 <= iy -> (iy + 1) * fst (tile_shape c) <= Z.of_nat (length data) ->
  0 <= ix ->
  Forall (fun row => (ix + 1) * snd (tile_shape c) <= Z.of_nat (length row)) data ->
  tile_pixels c data iy ix = tile_window data (tile_shape c) iy ix.
Proof.
  intros Hth Htw Hiy Hrows Hix Hcols.
  unfold tile_pixels, tile_window, slice2.
  destruct (tile_shape c) as [th tw]. simpl in *.
  rewrite (slice_in_range data) by nia.
  replace ((iy + 1) * th - iy * th) with th by ring.
  apply List.map_ext_in. intros row Hrow.
  assert (Hlen : (ix + 1) * tw <= Z.of_nat (length row)).
  { apply (proj1 (List.Forall_forall _ _) Hcols).
    eapply In_window. exact Hrow. }
  rewrite (slice_in_range row) by nia.
  replace ((ix + 1) * tw - ix * tw) with tw by ring.
  reflexivity.
Qed.

(** C8.  For the in-bounds tile (1, 0) of the 4 x 4 raster in 2 x 2 tiles,
    [tile_pixels] reads rows 2..3, columns 0..1, as the tile index times the
    tile shape says.  [activate] multiplies the tile offset by the zero
    point: with the zero point at (0, 0) its bounds are rows 0..2, columns
    0..2, and it reads the window of tile (0, 0) instead. *)
Theorem activate_window_uses_zero_point :
  TileStore.init "flat" example_data (0, 0)%Q (mkrez 1 1) (2, 2) = Ok example_store /\
  in_bounds (_calc example_store) 1 0 /\
  tile_window example_data (2, 2) 1 0 = [[20; 21]; [30; 31]] /\
  tile_pixels (_calc example_store) (data example_store) 1 0
    = tile_window example_data (2, 2) 1 0 /\
  activate_bounds example_store (1, 0) = (0, 2, 0, 2)%Q /\
  activate_slice example_store (1, 0) = Ok [[0; 1]; [10; 11]] /\
  activate_slice example_store (1, 0) <> Ok (tile_window example_data (2, 2) 1 0).
Proof.
  split; [reflexivity|].
  split; [repeat split; vm_compute; congruence|].
  split; [reflexivity|].
  split; [reflexivity|].
  split; [reflexivity|].
  split; [reflexivity|].
  vm_compute. discriminate.
Qed.

(** C9 as stated fails: after [del self._active[k]] and before
    [glDeleteTextures([t])] the entry of tile (0, 0) is gone from [_active]
    while texture 1 is still allocated. *)
Lemma removal_precedes_release :
  ~ release_before_removal 0 0 active_world.
Proof.
  intros H.
  apply (H 1 [active_world; del_active (0, 0) active_world;
              delete_textures [1] (del_active (0, 0) active_world)]
           (del_active (0, 0) active_world)).
  - vm_compute. reflexivity.
  - vm_compute. reflexivity.
  - right. left. reflexivity.
  - split.
    + apply lookup_delete_eq.
    + simpl. apply elem_of_singleton. reflexivity.
Qed.

(** C9, amended.  [deactivate] of an active tile first removes the tile's
    entry from [_active], leaving the GL context as it was, and then
    releases the texture; when it returns, the entry is gone, the texture is
    no longer allocated, every other entry is untouched, and the only GL call
    made is the deletion of that one texture. *)
Theorem deactivate_removes_then_releases (tile_y tile_x : Z) (w : world) (t_ : Z) :
  _active (store w) !! (tile_y, tile_x) = Some t_ ->
  exists w1 w2,
    deactivate_trace tile_y tile_x w = Ok [w; w1; w2] /\
    deactivate tile_y tile_x w = (Ok tt, w2) /\
    (_active (store w1) !! (tile_y, tile_x) = None /\ gl w1 = gl w) /\
    (_active (store w2) !! (tile_y, tile_x) = None /\
     (t_ ∉ gl_live (gl w2)) /\
     gl_log (gl w2) = gl_log (gl w) ++ [DeleteTextures [t_]] /\
     forall k, k <> (tile_y, tile_x) ->
       _active (store w2) !! k = _active (store w) !! k).
Proof.
  intros Hk.
  exists (del_active (tile_y, tile_x) w),
         (delete_textures [t_] (del_active (tile_y, tile_x) w)).
  unfold deactivate_trace, deactivate. rewrite Hk.
  split; [reflexivity|]. split; [reflexivity|].
  split; [split; [apply lookup_delete_eq | reflexivity]|].
  split; [apply lookup_delete_eq|].
  split.
  { simpl. intros [_ Hn]%elem_of_difference. apply Hn.
    apply elem_of_union. left. apply elem_of_singleton. reflexivity. }
  split; [reflexivity|].
  intros k Hne. simpl. apply lookup_delete_ne. congruence.
Qed.

Lemma deactivate_removes_then_releases_witness :
  _active (store active_world) !! (0, 0) = Some 1 /\
  exists w1 w2,
    deactivate_trace 0 0 active_world = Ok [active_world; w1; w2] /\
    deactivate 0 0 active_world = (Ok tt, w2) /\
    (_active (store w1) !! (0, 0) = None /\ gl w1 = gl active_world) /\
    (_active (store w2) !! (0, 0) = None /\
     (1 ∉ gl_live (gl w2)) /\
     gl_log (gl w2) = gl_log (gl active_world) ++ [DeleteTextures [1]] /\
     forall k, k <> (0, 0) ->
       _active (store w2) !! k = _active (store active_world) !! k).
Proof.
  split; [vm_compute; reflexivity|].
  apply (deactivate_removes_then_releases 0 0 active_world 1).
  vm_compute. reflexivity.
Defined.

(** [deactivate] of a tile that is not active raises [KeyError] and changes
    nothing. *)
Lemma deactivate_not_active (tile_y tile_x : Z) (w : world) :
  _active (store w) !! (tile_y, tile_x) = None ->
  deactivate tile_y tile_x w = (Raise KeyError, w).
Proof. intros H. unfold deactivate. rewrite H. reflexivity. Qed.

End TileStoreFacts.

(** ** SIFTMainMapWidget *)

Module MapWidgetFacts.
Import MapWidget MapWidgetSpec.

Lemma mem_In (x : Layer) (xs : list Layer) : mem x xs = true <-> In x xs.
Proof.
  unfold mem. rewrite existsb_exists. split.
  - intros (y & Hy & E). apply Nat.eqb_eq in E. subst. exact Hy.
  - intros H. exists x. split; [exact H | apply Nat.eqb_refl].
Qed.

Lemma enqueue_In (cs d : list Layer) (x : Layer) :
  In x (enqueue d cs) <-> In x d \/ In x cs.
Proof.
  unfold enqueue. revert d. induction cs as [|c cs IH]; intros d; simpl.
  - tauto.
  - rewrite IH. destruct (mem c d) eqn:E.
    + apply mem_In in E. split; [tauto|].
      intros [H|[->|H]]; tauto.
    + rewrite in_app_iff. simpl. split.
      * intros [[H|[->|[]]]|H]; tauto.
      * intros [H|[->|H]]; tauto.
Qed.

Lemma enqueue_NoDup (cs d : list Layer) :
  List.NoDup d -> List.NoDup (enqueue d cs).
Proof.
  unfold enqueue. revert d. induction cs as [|c cs IH]; intros d Hd; simpl.
  - exact Hd.
  - apply IH. destruct (mem c d) eqn:E; [exact Hd|].
    apply List.NoDup_app; [exact Hd | | ].
    + constructor; [intros [] | constructor].
    + intros y Hy [<-|[]].
      apply mem_In in Hy. congruence.
Qed.

(** After a frame, the pending layers are those pending before together
    with the layers of the drawing plan whose [paint] returned [True]. *)
Lemma on_draw_pending paint plan self (x : Layer) :
  In x (_deferred_render_layers (on_draw paint plan self))
  <-> In x (_deferred_render_layers self) \/ (In x plan /\ paint x = true).
Proof.
  unfold on_draw.
  destruct (List.filter paint plan) as [|c cs] eqn:E.
  - split; [tauto|]. intros [H|H]; [exact H|].
    apply List.filter_In in H. rewrite E in H. destruct H.
  - cbn [_deferred_render_layers]. rewrite enqueue_In, <- E, List.filter_In.
    tauto.
Qed.

(** A layer is queued at most once, however often it is reported. *)
Lemma on_draw_NoDup paint plan self :
  List.NoDup (_deferred_render_layers self) ->
  List.NoDup (_deferred_render_layers (on_draw paint plan self)).
Proof.
  intros H. unfold on_draw.
  destruct (List.filter paint plan) as [|c cs]; [exact H|].
  cbn [_deferred_render_layers]. apply enqueue_NoDup. exact H.
Qed.






End MapWidgetFacts.

(** ** Further properties of MercatorTileCalc *)

Module TileCalcExtras.
Import TileCalc TileCalcSpec TileCalcFacts ExtraSpec.

(** One axis in closed form: the first index is the tile of the low pixel
    edge less the low margin, not below 0; the end index is that tile plus
    the tile count plus the high margin, not above the number of tiles. *)
Lemma axis_range_closed (lo hi : Q) (tsize xlo xhi avail : Z) :
  axis_range lo hi tsize xlo xhi avail
  = (Z.max 0 (Qfloor (lo / float tsize) - Z.max 0 xlo),
     Z.min avail (Qfloor (lo / float tsize)
                  + Qceiling ((hi - lo) / float tsize) + Z.max 0 xhi)).
Proof.
  unfold axis_range.
  set (f := Qfloor (lo / float tsize)).
  set (n := Qceiling ((hi - lo) / float tsize)).
  repeat match goal with
         | |- context [if ?c <? ?d then _ else _] => destruct (Z.ltb_spec c d)
         end;
  f_equal; lia.
Qed.

(** [visible_tiles] of the embedding, with its second half in closed form. *)
Lemma visible_tiles_closed_form n ps zp rz ts c V X :
  init n ps zp rz ts = Ok c ->
  let pv := pixel_view c V in
  let th := float (fst (tile_shape c)) in
  let tw := float (snd (tile_shape c)) in
  visible_tiles c V X =
    Ok (WELLSAMPLED,
        {| b := Z.max 0 (Qfloor (b pv / th) - Z.max 0 (b X));
           l := Z.max 0 (Qfloor (l pv / tw) - Z.max 0 (l X));
           t := Z.min (fst (tiles_avail c))
                  (Qfloor (b pv / th) + Qceiling ((t pv - b pv) / th)
                   + Z.max 0 (t X));
           r := Z.min (snd (tiles_avail c))
                  (Qfloor (l pv / tw) + Qceiling ((r pv - l pv) / tw)
                   + Z.max 0 (r X)) |}).
Proof.
  intros Hinit pv th tw.
  rewrite (visible_tiles_axes c V X (init_divisors _ _ _ _ _ _ Hinit)).
  cbv zeta. rewrite !axis_range_closed. reflexivity.
Qed.

(** The embedding of [visible_tiles] runs the second half of the function
    on the rounded quotients. *)
Lemma visible_tiles_stage (c : MercatorTileCalc) (V : box Q) (X : box Z) :
  divisors_nonzero c ->
  let pv := pixel_view c V in
  let th := float (fst (tile_shape c)) in
  let tw := float (snd (tile_shape c)) in
  visible_tiles c V X =
    Ok (WELLSAMPLED,
        extras_and_truncation
          (Qfloor (b pv / th)) (Qfloor (l pv / tw))
          (Qceiling ((t pv - b pv) / th)) (Qceiling ((r pv - l pv) / tw))
          X (tiles_avail c)).
Proof.
  intros (Hy & Hx & Hth & Htw).
  unfold visible_tiles, extras_and_truncation, pixel_view.
  destruct (tile_shape c) as [th tw], (tiles_avail c) as [ath atw].
  simpl in Hth, Htw. cbn [fst snd b l t r].
  rewrite !(py_fdiv_ok _ _ Hy), !(py_fdiv_ok _ _ Hx). cbn [bind].
  rewrite !(py_fdiv_ok _ _ (float_nonzero th Hth)).
  rewrite !(py_fdiv_ok _ _ (float_nonzero tw Htw)). cbn [bind].
  repeat match goal with
         | |- context [if ?c then _ else _] => destruct c
         end;
  reflexivity.
Qed.

(** X1.  The second half of [visible_tiles] (adding the extra tiles, then
    truncating), applied to whatever first tile and tile counts the rounding
    has produced, has a closed form: on each axis the first index is
    [max(0, first - max(0, low margin))] and the end index is
    [min(tiles_avail, first + count + max(0, high margin))].  So the first
    index is never negative and the end index never exceeds [tiles_avail],
    and a negative margin component counts as zero. *)
Theorem extras_and_truncation_closed_form (tiy0 tix0 nth ntw : Z) (X : box Z)
    (ath atw : Z) :
  extras_and_truncation tiy0 tix0 nth ntw X (ath, atw)
  = {| b := Z.max 0 (tiy0 - Z.max 0 (b X));
       l := Z.max 0 (tix0 - Z.max 0 (l X));
       t := Z.min ath (tiy0 + nth + Z.max 0 (t X));
       r := Z.min atw (tix0 + ntw + Z.max 0 (r X)) |} /\
  0 <= b (extras_and_truncation tiy0 tix0 nth ntw X (ath, atw)) /\
  0 <= l (extras_and_truncation tiy0 tix0 nth ntw X (ath, atw)) /\
  t (extras_and_truncation tiy0 tix0 nth ntw X (ath, atw)) <= ath /\
  r (extras_and_truncation tiy0 tix0 nth ntw X (ath, atw)) <= atw.
Proof.
  assert (E : extras_and_truncation tiy0 tix0 nth ntw X (ath, atw)
              = {| b := Z.max 0 (tiy0 - Z.max 0 (b X));
                   l := Z.max 0 (tix0 - Z.max 0 (l X));
                   t := Z.min ath (tiy0 + nth + Z.max 0 (t X));
                   r := Z.min atw (tix0 + ntw + Z.max 0 (r X)) |}).
  { unfold extras_and_truncation.
    repeat match goal with
           | |- context [if ?c <? ?d then _ else _] => destruct (Z.ltb_spec c d)
           end;
    f_equal; lia. }
  rewrite E. cbn [b l t r]. repeat split; lia.
Qed.

Lemma ok_pair_inj {A B} (a a' : A) (x x' : B) :
  Ok (a, x) = Ok (a', x') -> a = a' /\ x = x'.
Proof. intros H. injection H. auto. Qed.

(** X2.  Enlarging the margin never shrinks the answer: for the same world
    box, the tile box returned for a margin that is component-wise at least
    as large contains the tile box returned for the smaller margin. *)
Theorem visible_tiles_margin_monotone n ps zp rz ts c V X1 X2 s1 s2 T1 T2 :
  init n ps zp rz ts = Ok c ->
  margin_le X1 X2 ->
  visible_tiles c V X1 = Ok (s1, T1) ->
  visible_tiles c V X2 = Ok (s2, T2) ->
  tiles_within T1 T2.
Proof.
  intros Hinit (Hb & Hl & Ht & Hr).
  rewrite !(visible_tiles_closed_form _ _ _ _ _ _ _ _ Hinit). cbv zeta.
  intros H1 H2.
  apply ok_pair_inj in H1 as [_ <-]. apply ok_pair_inj in H2 as [_ <-].
  unfold tiles_within. cbn [b l t r].
  repeat match goal with
         | |- context [Qfloor ?q] => generalize (Qfloor q); intro
         | |- context [Qceiling ?q] => generalize (Qceiling q); intro
         end.
  repeat split; lia.
Qed.

Lemma visible_tiles_margin_monotone_witness :
  init "raster" (512, 1024) (0, 0)%Q (mkrez 1 1) (256, 512) = Ok example_calc /\
  margin_le zero_margin (mkbox 1 1 1 1) /\
  visible_tiles example_calc upper_part_box zero_margin
    = Ok (WELLSAMPLED, mkbox 1 0 2 1) /\
  visible_tiles example_calc upper_part_box (mkbox 1 1 1 1)
    = Ok (WELLSAMPLED, mkbox 0 0 2 2) /\
  tiles_within (mkbox 1 0 2 1) (mkbox 0 0 2 2).
Proof.
  assert (Hm : margin_le zero_margin (mkbox 1 1 1 1))
    by (unfold margin_le; simpl; lia).
  split; [reflexivity|]. split; [exact Hm|].
  split; [reflexivity|]. split; [reflexivity|].
  exact (visible_tiles_margin_monotone "raster" (512, 1024) (0, 0)%Q (mkrez 1 1)
           (256, 512) example_calc upper_part_box zero_margin (mkbox 1 1 1 1)
           WELLSAMPLED WELLSAMPLED (mkbox 1 0 2 1) (mkbox 0 0 2 2)
           eq_refl Hm eq_refl eq_refl).
Defined.

Lemma float_div_exact (h d : Z) :
  d <> 0 -> h mod d = 0 -> (float h / float d == float (h / d))%Q.
Proof.
  intros Hd Hm.
  pose proof (Z.div_mod h d Hd) as E. rewrite Hm, Z.add_0_r in E.
  pose proof (float_nonzero d Hd) as Hnz.
  rewrite E at 1. unfold float in *. rewrite inject_Z_mult.
  field. exact Hnz.
Qed.

Lemma extent_pixels (e z p d : Q) :
  ~ (d == 0)%Q -> (((p - z) * d - - z * d) / d == p)%Q.
Proof. intros Hd. field. exact Hd. Qed.

Lemma origin_pixels (z d : Q) :
  ~ (d == 0)%Q -> ((- z * d - - z * d) / d == 0)%Q.
Proof. intros Hd. field. exact Hd. Qed.

(** X3.  Asking for the whole raster returns every tile: for the world box
    [extents_box] itself, and any margin, the answer is the index box from
    (0, 0) to [tiles_avail]. *)
Theorem visible_tiles_whole_raster n ps zp rz ts c X :
  init n ps zp rz ts = Ok c ->
  visible_tiles c (extents_box c) X
  = Ok (WELLSAMPLED,
        {| b := 0; l := 0; t := fst (tiles_avail c); r := snd (tiles_avail c) |}).
Proof.
  intros Hinit.
  rewrite (visible_tiles_closed_form _ _ _ _ _ _ (extents_box c) X Hinit).
  cbv zeta.
  pose proof (init_inv _ _ _ _ _ _ Hinit) as (Hy & Hx & Eh & Ew & Hc).
  apply exact_multiple_true in Eh. apply exact_multiple_true in Ew.
  destruct Eh as [Hth Eh], Ew as [Htw Ew].
  apply Qpos_nonzero in Hy. apply Qpos_nonzero in Hx.
  rewrite Hc. unfold pixel_view, extents_of. cbn [b l t r fst snd
    extents_box pixel_rez tile_shape tiles_avail].
  assert (Fy : Qfloor ((- fst zp * dy rz - - fst zp * dy rz) / dy rz
                       / float (fst ts)) = 0).
  { transitivity (Qfloor 0); [apply Qfloor_comp | reflexivity].
    rewrite (origin_pixels _ _ Hy). reflexivity. }
  assert (Fx : Qfloor ((- snd zp * dx rz - - snd zp * dx rz) / dx rz
                       / float (snd ts)) = 0).
  { transitivity (Qfloor 0); [apply Qfloor_comp | reflexivity].
    rewrite (origin_pixels _ _ Hx). reflexivity. }
  assert (Cy : Qceiling ((((float (fst ps) - fst zp) * dy rz - - fst zp * dy rz)
                          / dy rz
                          - (- fst zp * dy rz - - fst zp * dy rz) / dy rz)
                         / float (fst ts)) = fst ps / fst ts).
  { transitivity (Qceiling (inject_Z (fst ps / fst ts)));
      [apply Qceiling_comp | apply Qceiling_Z].
    rewrite (extent_pixels 0 _ _ _ Hy), (origin_pixels _ _ Hy).
    rewrite <- (float_div_exact _ _ Hth Eh).
    unfold Qminus. rewrite Qplus_0_r. reflexivity. }
  assert (Cx : Qceiling ((((float (snd ps) - snd zp) * dx rz - - snd zp * dx rz)
                          / dx rz
                          - (- snd zp * dx rz - - snd zp * dx rz) / dx rz)
                         / float (snd ts)) = snd ps / snd ts).
  { transitivity (Qceiling (inject_Z (snd ps / snd ts)));
      [apply Qceiling_comp | apply Qceiling_Z].
    rewrite (extent_pixels 0 _ _ _ Hx), (origin_pixels _ _ Hx).
    rewrite <- (float_div_exact _ _ Htw Ew).
    unfold Qminus. rewrite Qplus_0_r. reflexivity. }
  rewrite Fy, Fx, Cy, Cx.
  do 2 f_equal. f_equal; lia.
Qed.

Lemma visible_tiles_whole_raster_witness :
  init "raster" (512, 1024) (0, 0)%Q (mkrez 1 1) (256, 512) = Ok example_calc /\
  visible_tiles example_calc (extents_box example_calc) (mkbox 1 0 3 0)
  = Ok (WELLSAMPLED, mkbox 0 0 2 2).
Proof.
  split; [reflexivity|].
  exact (visible_tiles_whole_raster "raster" (512, 1024) (0, 0)%Q (mkrez 1 1)
           (256, 512) example_calc (mkbox 1 0 3 0) eq_refl).
Defined.


(** X6.  The extents a constructed calculator derives: the extents box is as
    high as the raster has pixel rows times [dy] and as wide as it has pixel
    columns times [dx], the world origin converts back to the pixel
    [zero_point], and for a non-negative pixel shape the box has
    top >= bottom and right >= left. *)
Theorem extents_box_geometry n ps zp rz ts c :
  init n ps zp rz ts = Ok c ->
  (t (extents_box c) - b (extents_box c) == float (fst ps) * dy rz)%Q /\
  (r (extents_box c) - l (extents_box c) == float (snd ps) * dx rz)%Q /\
  (b (pixel_view c (mkbox 0 0 0 0)) == fst zp)%Q /\
  (l (pixel_view c (mkbox 0 0 0 0)) == snd zp)%Q /\
  (0 <= fst ps -> 0 <= snd ps ->
   (b (extents_box c) <= t (extents_box c))%Q /\
   (l (extents_box c) <= r (extents_box c))%Q).
Proof.
  intros Hinit.
  pose proof (init_inv _ _ _ _ _ _ Hinit) as (Hy & Hx & _ & _ & Hc).
  rewrite Hc. unfold pixel_view, extents_of.
  cbn [b l t r fst snd extents_box pixel_rez].
  pose proof (Qpos_nonzero _ Hy) as Hy0. pose proof (Qpos_nonzero _ Hx) as Hx0.
  split; [ring|]. split; [ring|].
  split; [field; exact Hy0|]. split; [field; exact Hx0|].
  intros Hh Hw. split.
  - apply Qmult_le_compat_r; [|apply Qlt_le_weak; exact Hy].
    apply Qplus_le_l with (z := fst zp). ring_simplify.
    unfold float. change 0%Q with (inject_Z 0). rewrite <- Zle_Qle. exact Hh.
  - apply Qmult_le_compat_r; [|apply Qlt_le_weak; exact Hx].
    apply Qplus_le_l with (z := snd zp). ring_simplify.
    unfold float. change 0%Q with (inject_Z 0). rewrite <- Zle_Qle. exact Hw.
Qed.

Lemma extents_box_geometry_witness :
  init "raster" (512, 1024) (0, 0)%Q (mkrez 1 1) (256, 512) = Ok example_calc /\
  (t (extents_box example_calc) - b (extents_box example_calc)
   == float 512 * 1)%Q /\
  (r (extents_box example_calc) - l (extents_box example_calc)
   == float 1024 * 1)%Q.
Proof.
  split; [reflexivity|].
  pose proof (extents_box_geometry "raster" (512, 1024) (0, 0)%Q (mkrez 1 1)
                (256, 512) example_calc eq_refl) as (H1 & H2 & _).
  split; [exact H1 | exact H2].
Defined.

(** X7.  The truncation works for every world box that overlaps the
    raster: on a constructed calculator with positive tile dimensions and a
    non-negative pixel shape, if the requested pixel range is non-empty and
    overlaps the raster on both axes, the returned tile box lies within
    [0, tiles_avail] with top >= bottom and right >= left, for every
    margin. *)
Theorem visible_tiles_overlapping_clamped n ps zp rz ts c V X :
  init n ps zp rz ts = Ok c ->
  0 < fst ts -> 0 < snd ts -> 0 <= fst ps -> 0 <= snd ps ->
  (b (pixel_view c V) <= t (pixel_view c V))%Q ->
  (b (pixel_view c V) < float (fst ps))%Q ->
  (0 <= t (pixel_view c V))%Q ->
  (l (pixel_view c V) <= r (pixel_view c V))%Q ->
  (l (pixel_view c V) < float (snd ps))%Q ->
  (0 <= r (pixel_view c V))%Q ->
  exists tiles,
    visible_tiles c V X = Ok (WELLSAMPLED, tiles) /\ well_clamped c tiles.
Proof. exact (TileCalcClamp.visible_tiles_well_clamped n ps zp rz ts c V X). Qed.

Lemma visible_tiles_overlapping_clamped_witness :
  init "raster" (512, 1024) (0, 0)%Q (mkrez 1 1) (256, 512) = Ok example_calc /\
  exists tiles,
    visible_tiles example_calc straddling_box (mkbox 5 5 5 5)
      = Ok (WELLSAMPLED, tiles) /\
    well_clamped example_calc tiles.
Proof.
  split; [reflexivity|].
  refine (visible_tiles_overlapping_clamped "raster" (512, 1024) (0, 0)%Q
            (mkrez 1 1) (256, 512) example_calc straddling_box (mkbox 5 5 5 5)
            eq_refl _ _ _ _ _ _ _ _ _ _);
    vm_compute; congruence.
Defined.

End TileCalcExtras.

(** ** Further properties of tile slicing and of FlatFileTileSet *)

Module TileStoreExtras.
Import TileCalc TileCalcSpec TileStore TileStoreSpec TileStoreFacts ExtraSpec.

Lemma length_tile_window {A} (data : list (list A)) (th tw iy ix : Z) :
  0 < th -> 0 < tw -> 0 <= iy -> (iy + 1) * th <= Z.of_nat (length data) ->
  0 <= ix ->
  Forall (fun row => (ix + 1) * tw <= Z.of_nat (length row)) data ->
  length (tile_window data (th, tw) iy ix) = Z.to_nat th /\
  Forall (fun row => length row = Z.to_nat tw) (tile_window data (th, tw) iy ix).
Proof.
  intros Hth Htw Hiy Hrows Hix Hcols. unfold tile_window. split.
  - rewrite List.length_map, List.length_firstn, List.length_skipn.
    assert (0 <= iy * th) by nia.
    assert (iy * th + th <= Z.of_nat (length data)) by nia.
    lia.
  - apply List.Forall_forall. intros row' Hin.
    apply List.in_map_iff in Hin as (row & <- & Hin).
    apply In_window in Hin.
    pose proof (proj1 (List.Forall_forall _ _) Hcols row Hin) as Hlen.
    cbv beta in Hlen.
    rewrite List.length_firstn, List.length_skipn.
    assert (0 <= ix * tw) by nia.
    assert (ix * tw + tw <= Z.of_nat (length row)) by nia.
    lia.
Qed.

(** X9.  [tile_pixels] reads exactly the tile: for positive tile
    dimensions and a tile that fits in the array, the result is rows
    [iy*th, (iy+1)*th) and columns [ix*tw, (ix+1)*tw) of the data, that is
    [th] rows of [tw] elements each, whatever the zero point. *)
Theorem tile_pixels_reads_tile {A} (c : MercatorTileCalc) (data : list (list A))
    (iy ix : Z) :
  0 < fst (tile_shape c) -> 0 < snd (tile_shape c) ->
  0 <= iy -> (iy + 1) * fst (tile_shape c) <= Z.of_nat (length data) ->
  0 <= ix ->
  Forall (fun row => (ix + 1) * snd (tile_shape c) <= Z.of_nat (length row)) data ->
  tile_pixels c data iy ix = tile_window data (tile_shape c) iy ix /\
  length (tile_pixels c data iy ix) = Z.to_nat (fst (tile_shape c)) /\
  Forall (fun row => length row = Z.to_nat (snd (tile_shape c)))
         (tile_pixels c data iy ix).
Proof.
  intros Hth Htw Hiy Hrows Hix Hcols.
  rewrite (tile_pixels_window c data iy ix Hth Htw Hiy Hrows Hix Hcols).
  split; [reflexivity|].
  destruct (tile_shape c) as [th tw]. simpl in *.
  apply length_tile_window; assumption.
Qed.

Lemma tile_pixels_reads_tile_witness :
  tile_pixels small_calc example_data 1 1 = [[22; 23]; [32; 33]] /\
  length (tile_pixels small_calc example_data 1 1) = 2%nat.
Proof.
  assert (Hc : Forall (fun row => (1 + 1) * snd (tile_shape small_calc)
                                  <= Z.of_nat (length row)) example_data).
  { repeat constructor; vm_compute; congruence. }
  pose proof (tile_pixels_reads_tile small_calc example_data 1 1) as H.
  destruct H as (H1 & H2 & _); try exact Hc; try (vm_compute; congruence).
  split; [rewrite H1; reflexivity | exact H2].
Defined.

Lemma norm_bound_wrap (len i : Z) :
  i < 0 -> 0 <= i + len -> norm_bound len i = norm_bound len (i + len).
Proof.
  intros Hi Hl. unfold norm_bound.
  destruct (Z.ltb_spec i 0); [|lia].
  destruct (Z.ltb_spec (i + len) 0); [lia|]. reflexivity.
Qed.

Lemma slice_wrap {A} (xs : list A) (s e : Z) :
  s < 0 -> e < 0 -> 0 <= s + Z.of_nat (length xs) -> 0 <= e + Z.of_nat (length xs) ->
  slice xs s e = slice xs (s + Z.of_nat (length xs)) (e + Z.of_nat (length xs)).
Proof.
  intros Hs He Hs' He'. unfold slice.
  rewrite <- !norm_bound_wrap by assumption. reflexivity.
Qed.

Lemma slice_beyond {A} (xs : list A) (s e : Z) :
  Z.of_nat (length xs) <= s -> s <= e -> slice xs s e = [].
Proof.
  intros Hs He. unfold slice, norm_bound.
  destruct (Z.ltb_spec s 0); [lia|].
  destruct (Z.ltb_spec e 0); [lia|].
  rewrite !Z.min_l, !Z.max_r by lia.
  rewrite Z.sub_diag. reflexivity.
Qed.

(** X10.  [tile_pixels] never fails on a bad index, it answers from
    Python's slicing rules: for positive tile height, a tile row at or past
    the end of the data gives an empty result, tile row -1 gives an empty
    result, and tile row -k for 2 <= k <= ny (data of ny full tile rows)
    silently reads tile row ny - k counted from the other end. *)
Theorem tile_pixels_out_of_range {A} (c : MercatorTileCalc)
    (data : list (list A)) (ny ix : Z) :
  0 < fst (tile_shape c) ->
  Z.of_nat (length data) = ny * fst (tile_shape c) ->
  (forall iy, ny <= iy -> tile_pixels c data iy ix = []) /\
  tile_pixels c data (-1) ix = [] /\
  (forall k, 2 <= k <= ny ->
     tile_pixels c data (- k) ix = tile_pixels c data (ny - k) ix).
Proof.
  intros Hth Hlen. unfold tile_pixels, slice2.
  destruct (tile_shape c) as [th tw]. simpl in *.
  split; [|split].
  - intros iy Hiy. rewrite slice_beyond by nia. reflexivity.
  - replace ((-1 + 1) * th) with 0 by ring.
    assert (E : slice data (-1 * th) 0 = []).
    { unfold slice, norm_bound.
      destruct (Z.ltb_spec (-1 * th) 0); [|lia].
      destruct (Z.ltb_spec 0 0); [lia|].
      rewrite (Z.max_r 0 (Z.min _ 0)) by lia.
      rewrite (Z.min_r _ 0) by lia.
      replace (Z.to_nat (0 - _)) with 0%nat by lia. reflexivity. }
    rewrite E. reflexivity.
  - intros k Hk.
    rewrite (slice_wrap data (- k * th) ((- k + 1) * th)) by nia.
    rewrite Hlen.
    replace (- k * th + ny * th) with ((ny - k) * th) by ring.
    replace ((- k + 1) * th + ny * th) with ((ny - k + 1) * th) by ring.
    reflexivity.
Qed.

Lemma tile_pixels_out_of_range_witness :
  tile_pixels small_calc example_data 2 0 = [] /\
  tile_pixels small_calc example_data (-1) 0 = [] /\
  tile_pixels small_calc example_data (-2) 0
  = tile_pixels small_calc example_data 0 0.
Proof.
  pose proof (tile_pixels_out_of_range small_calc example_data 2 0) as H.
  destruct H as (H1 & H2 & H3); try (vm_compute; congruence).
  split; [apply H1; lia|]. split; [exact H2|].
  apply (H3 2). lia.
Defined.

End TileStoreExtras.

(** ** The activation life cycle *)

Module TileStoreLifecycle.
Import TileCalc TileCalcSpec TileStore TileStoreSpec TileStoreFacts ExtraSpec.

(** X11.  Whatever a lookup that did not raise found, afterwards the tile is
    active, and every further lookup of it returns that texture and changes
    neither the store nor the GL context. *)
Theorem getitem_then_cached (k : Z * Z) (w w1 : world) (v : pyret) :
  getitem k w = (Ok v, w1) ->
  exists texid,
    _active (store w1) !! k = Some texid /\
    getitem k w1 = (Ok (TexId texid), w1).
Proof.
  intros Hg.
  destruct (_active (store w) !! k) as [texid|] eqn:Hk.
  - rewrite (getitem_hit k w texid Hk) in Hg.
    injection Hg as _ <-.
    exists texid. split; [exact Hk | apply getitem_hit; exact Hk].
  - destruct (getitem_miss k w w1 v Hk Hg) as (_ & Ha & _).
    exists (gl_next (gl w)). split; [exact Ha | apply getitem_hit; exact Ha].
Qed.

Lemma getitem_then_cached_witness :
  getitem (0, 0) example_world = (Ok PyNone, active_world) /\
  exists texid,
    _active (store active_world) !! (0, 0) = Some texid /\
    getitem (0, 0) active_world = (Ok (TexId texid), active_world).
Proof.
  assert (H : getitem (0, 0) example_world = (Ok PyNone, active_world))
    by (vm_compute; reflexivity).
  split; [exact H|].
  exact (getitem_then_cached (0, 0) example_world active_world PyNone H).
Defined.

(** X12.  A lookup leaves every other tile's entry, the data and the
    calculator as they were, whether it hits, activates or raises. *)
Theorem getitem_frame (k k' : Z * Z) (w w1 : world) (res : result pyret) :
  getitem k w = (res, w1) -> k' <> k ->
  _active (store w1) !! k' = _active (store w) !! k' /\
  data (store w1) = data (store w) /\
  _calc (store w1) = _calc (store w).
Proof.
  unfold getitem, activate. intros Hg Hne.
  destruct (_active (store w) !! k).
  - injection Hg as _ <-. repeat split.
  - simpl in Hg. destruct (activate_slice (store w) k).
    + injection Hg as _ <-. simpl.
      split; [apply lookup_insert_ne; congruence|]. split; reflexivity.
    + injection Hg as _ <-. repeat split.
Qed.

Lemma getitem_frame_witness :
  getitem (0, 0) example_world = (Ok PyNone, active_world) /\
  _active (store active_world) !! (1, 1) = _active (store example_world) !! (1, 1) /\
  data (store active_world) = data (store example_world) /\
  _calc (store active_world) = _calc (store example_world).
Proof.
  assert (H : getitem (0, 0) example_world = (Ok PyNone, active_world))
    by (vm_compute; reflexivity).
  split; [exact H|].
  apply (getitem_frame (0, 0) (1, 1) example_world active_world (Ok PyNone) H).
  discriminate.
Defined.

(** X13.  [activate] takes its texture before it checks the window, so an
    activation that raises leaks one: the store is unchanged and nothing is
    registered or uploaded, but one more texture has been allocated and it
    is still alive. *)
Theorem activate_failure_leaks_texture (k : Z * Z) (w : world) (e : exn) :
  activate_slice (store w) k = Raise e ->
  exists w1,
    activate k w = (Raise e, w1) /\
    store w1 = store w /\
    allocations (gl w1) = S (allocations (gl w)) /\
    uploads (gl w1) = uploads (gl w) /\
    gl_next (gl w) ∈ gl_live (gl w1).
Proof.
  intros Hs. unfold activate. simpl. rewrite Hs.
  eexists. split; [reflexivity|]. simpl.
  split; [reflexivity|].
  unfold allocations, uploads. simpl.
  rewrite !List.filter_app, !List.length_app. simpl.
  split; [lia|]. split; [lia|].
  apply elem_of_union. left. apply elem_of_singleton. reflexivity.
Qed.

Lemma activate_failure_leaks_texture_witness :
  activate_slice (store unit_world) (5, 0) = Raise AssertionError /\
  exists w1,
    activate (5, 0) unit_world = (Raise AssertionError, w1) /\
    store w1 = store unit_world /\
    allocations (gl w1) = S (allocations (gl unit_world)) /\
    uploads (gl w1) = uploads (gl unit_world) /\
    gl_next (gl unit_world) ∈ gl_live (gl w1).
Proof.
  assert (H : activate_slice (store unit_world) (5, 0) = Raise AssertionError)
    by (vm_compute; reflexivity).
  split; [exact H|].
  exact (activate_failure_leaks_texture (5, 0) unit_world AssertionError H).
Defined.

(** X14.  Activating a tile and deactivating it again restores the active
    set: after a lookup of an inactive tile that did not raise,
    [deactivate] of that tile succeeds, [_active] is what it was before the
    lookup, and the texture allocated for the tile has been released. *)
Theorem activate_deactivate_round_trip (tile_y tile_x : Z) (w w1 : world) (v : pyret) :
  _active (store w) !! (tile_y, tile_x) = None ->
  getitem (tile_y, tile_x) w = (Ok v, w1) ->
  exists w2,
    deactivate tile_y tile_x w1 = (Ok tt, w2) /\
    _active (store w2) = _active (store w) /\
    (gl_next (gl w) ∉ gl_live (gl w2)) /\
    gl_live (gl w2) ⊆ gl_live (gl w).
Proof.
  intros Hk Hg.
  pose proof (getitem_miss _ _ _ _ Hk Hg) as (_ & Ha & _).
  unfold deactivate. rewrite Ha.
  eexists. split; [reflexivity|].
  unfold getitem in Hg. rewrite Hk in Hg. unfold activate in Hg. simpl in Hg.
  destruct (activate_slice (store w) (tile_y, tile_x)); [|discriminate].
  injection Hg as _ <-. cbn [store gl _active del_active delete_textures
    glDeleteTextures gl_live glBindTexture glTexSubImage2D].
  split; [apply delete_insert_id; exact Hk|].
  split.
  - intros [_ Hn]%elem_of_difference. apply Hn.
    apply elem_of_list_to_set. left.
  - intros x [Hx Hn]%elem_of_difference.
    apply elem_of_union in Hx as [Hx|Hx]; [|exact Hx].
    exfalso. apply Hn. apply elem_of_singleton in Hx. subst.
    apply elem_of_list_to_set. left.
Qed.

Lemma activate_deactivate_round_trip_witness :
  _active (store example_world) !! (0, 0) = None /\
  exists w2,
    deactivate 0 0 active_world = (Ok tt, w2) /\
    _active (store w2) = _active (store example_world) /\
    (gl_next (gl example_world) ∉ gl_live (gl w2)) /\
    gl_live (gl w2) ⊆ gl_live (gl example_world).
Proof.
  assert (Hk : _active (store example_world) !! (0, 0) = None)
    by (vm_compute; reflexivity).
  assert (H : getitem (0, 0) example_world = (Ok PyNone, active_world))
    by (vm_compute; reflexivity).
  split; [exact Hk|].
  exact (activate_deactivate_round_trip 0 0 example_world active_world PyNone Hk H).
Defined.

(** X15.  [deactivate] of a tile that is not active raises [KeyError] and
    changes nothing; in particular a second [deactivate] right after a
    successful one raises [KeyError]. *)
Theorem deactivate_missing_raises (tile_y tile_x : Z) (w : world) :
  (_active (store w) !! (tile_y, tile_x) = None ->
   deactivate tile_y tile_x w = (Raise KeyError, w)) /\
  (forall w1, deactivate tile_y tile_x w = (Ok tt, w1) ->
   deactivate tile_y tile_x w1 = (Raise KeyError, w1)).
Proof.
  split; [apply deactivate_not_active|].
  intros w1 Hd. apply deactivate_not_active.
  unfold deactivate in Hd.
  destruct (_active (store w) !! (tile_y, tile_x)); [|discriminate].
  injection Hd as <-. simpl. apply lookup_delete_eq.
Qed.

Lemma deactivate_missing_raises_witness :
  deactivate 0 0 example_world = (Raise KeyError, example_world) /\
  deactivate 0 0 (snd (deactivate 0 0 active_world))
  = (Raise KeyError, snd (deactivate 0 0 active_world)).
Proof.
  destruct (deactivate_missing_raises 0 0 example_world) as [H1 _].
  destruct (deactivate_missing_raises 0 0 active_world) as [_ H2].
  split.
  - apply H1. vm_compute. reflexivity.
  - apply H2. vm_compute. reflexivity.
Defined.

(** X16.  [activate] does not look at [_active]: called for a tile that is
    already active it allocates another texture and overwrites the entry,
    and the texture registered before is neither deleted nor referenced any
    more under that key. *)
Theorem activate_active_tile_overwrites (k : Z * Z) (w w1 : world) (old : Z) (v : pyret) :
  _active (store w) !! k = Some old ->
  old ∈ gl_live (gl w) ->
  activate k w = (Ok v, w1) ->
  _active (store w1) !! k = Some (gl_next (gl w)) /\
  old ∈ gl_live (gl w1) /\
  allocations (gl w1) = S (allocations (gl w)) /\
  Forall (fun c => forall ts, c <> DeleteTextures ts)
         (skipn (length (gl_log (gl w))) (gl_log (gl w1))).
Proof.
  intros Hk Hlive. unfold activate. simpl.
  destruct (activate_slice (store w) k); [|discriminate].
  intros [= _ <-]. simpl.
  split; [apply lookup_insert_eq|].
  split; [apply elem_of_union; right; exact Hlive|].
  split.
  - unfold allocations. simpl.
    rewrite !List.filter_app, !List.length_app. simpl. lia.
  - rewrite <- !List.app_assoc. rewrite List.skipn_app, List.skipn_all.
    rewrite Nat.sub_diag. simpl.
    repeat constructor; intros ts; discriminate.
Qed.

Lemma activate_active_tile_overwrites_witness :
  _active (store active_world) !! (0, 0) = Some 1 /\
  (exists w1,
     activate (0, 0) active_world = (Ok PyNone, w1) /\
     _active (store w1) !! (0, 0) = Some 2 /\
     1 ∈ gl_live (gl w1)).
Proof.
  assert (Hk : _active (store active_world) !! (0, 0) = Some 1)
    by (vm_compute; reflexivity).
  assert (Hl : 1 ∈ gl_live (gl active_world))
    by (vm_compute; reflexivity).
  split; [exact Hk|].
  exists (snd (activate (0, 0) active_world)).
  split; [vm_compute; reflexivity|].
  pose proof (activate_active_tile_overwrites (0, 0) active_world
                (snd (activate (0, 0) active_world)) 1 PyNone Hk Hl) as H.
  destruct H as (H1 & H2 & _); [vm_compute; reflexivity|].
  split; [exact H1 | exact H2].
Defined.

End TileStoreLifecycle.

(** ** Further properties of the deferred-render scheduler *)

Module MapWidgetExtras.
Import MapWidget MapWidgetSpec MapWidgetFacts ExtraSpec.

(** X18.  After a frame, a layer is pending exactly if it was pending
    before or it is in the frame's drawing plan and its [paint] returned a
    true value. *)
Theorem on_draw_pending_exactly paint plan self (x : Layer) :
  In x (_deferred_render_layers (on_draw paint plan self))
  <-> In x (_deferred_render_layers self) \/ (In x plan /\ paint x = true).
Proof. exact (on_draw_pending paint plan self x). Qed.

Lemma on_draw_pending_exactly_witness :
  In layer_B (_deferred_render_layers
                (on_draw (paint_true_on [layer_B]) [layer_A; layer_B] fresh)).
Proof.
  apply (proj2 (on_draw_pending_exactly (paint_true_on [layer_B])
                  [layer_A; layer_B] fresh layer_B)).
  right. split; [right; left; reflexivity | reflexivity].
Defined.

Lemma enqueue_appends (cs d : list Layer) :
  exists added,
    enqueue d cs = d ++ added /\
    forall x, In x added -> In x cs /\ ~ In x d.
Proof.
  unfold enqueue. revert d. induction cs as [|c cs IH]; intros d; simpl.
  - exists []. split; [symmetry; apply List.app_nil_r | intros x []].
  - destruct (mem c d) eqn:E.
    + destruct (IH d) as (added & Heq & Hin).
      exists added. split; [exact Heq|].
      intros x Hx. destruct (Hin x Hx). tauto.
    + destruct (IH (d ++ [c])) as (added & Heq & Hin).
      exists (c :: added). split.
      * rewrite Heq, <- List.app_assoc. reflexivity.
      * intros x [<-|Hx].
        -- split; [left; reflexivity|].
           intros Hd. apply mem_In in Hd. congruence.
        -- destruct (Hin x Hx) as [H1 H2]. split; [right; exact H1|].
           intros Hd. apply H2. apply in_or_app. left. exact Hd.
Qed.

(** X19.  Queueing keeps the order of arrival and never duplicates: a frame
    leaves the layers already pending where they are and appends the newly
    reported ones behind them, each once, so a pending list without
    duplicates stays without duplicates. *)
Theorem on_draw_appends_new_layers paint plan self :
  List.NoDup (_deferred_render_layers self) ->
  exists added,
    _deferred_render_layers (on_draw paint plan self)
      = _deferred_render_layers self ++ added /\
    List.NoDup (_deferred_render_layers (on_draw paint plan self)) /\
    forall x, In x added ->
      In x plan /\ paint x = true /\ ~ In x (_deferred_render_layers self).
Proof.
  intros Hnd. pose proof (on_draw_NoDup paint plan self Hnd) as Hnd'.
  unfold on_draw in *.
  destruct (List.filter paint plan) as [|c cs] eqn:E.
  - exists []. split; [symmetry; apply List.app_nil_r|].
    split; [exact Hnd | intros x []].
  - cbn [_deferred_render_layers] in *.
    destruct (enqueue_appends (c :: cs) (_deferred_render_layers self))
      as (added & Heq & Hin).
    exists added. split; [exact Heq|]. split; [exact Hnd'|].
    intros x Hx. destruct (Hin x Hx) as [H1 H2].
    rewrite <- E in H1. apply List.filter_In in H1. tauto.
Qed.

Lemma on_draw_appends_new_layers_witness :
  exists added,
    _deferred_render_layers
      (on_draw (paint_true_on [layer_A; layer_B]) [layer_B; layer_A]
         (on_draw (paint_true_on [layer_A]) [layer_A; layer_B] fresh))
    = [layer_A] ++ added /\
    added = [layer_B].
Proof.
  pose proof (on_draw_appends_new_layers (paint_true_on [layer_A; layer_B])
                [layer_B; layer_A]
                (on_draw (paint_true_on [layer_A]) [layer_A; layer_B] fresh)) as H.
  destruct H as (added & Heq & _).
  { repeat constructor; simpl; intuition discriminate. }
  exists added. split; [exact Heq|].
  change ([layer_A; layer_B] = [layer_A] ++ added) in Heq.
  injection Heq as <-. reflexivity.
Defined.







Lemma dirty_filter (f : frame) :
  dirty f = true <-> List.filter (fst f) (snd f) <> [].
Proof.
  unfold dirty. rewrite existsb_exists. split.
  - intros (x & Hx & Hp) E.
    assert (H : In x (List.filter (fst f) (snd f)))
      by (apply List.filter_In; split; assumption).
    rewrite E in H. destruct H.
  - intros Hne. destruct (List.filter (fst f) (snd f)) as [|x xs] eqn:E; [congruence|].
    exists x. apply List.filter_In. rewrite E. left; reflexivity.
Qed.

(** X22.  Nothing is ever debounced: [QTimer.singleShot] hands back no
    timer to stop, so starting from a fresh widget every frame in which some
    layer's [paint] returned a true value schedules one more single-shot,
    and the frames in which none did schedule nothing and change nothing. *)
Theorem every_dirty_frame_schedules_a_shot (frames : list frame) :
  single_shots (draw_frames frames fresh)
  = length (List.filter dirty frames) /\
  _deferred_render_timer (draw_frames frames fresh) = None /\
  (forall f self, dirty f = false -> on_draw (fst f) (snd f) self = self).
Proof.
  assert (G : forall fs w, _deferred_render_timer w = None ->
            single_shots (draw_frames fs w)
            = (single_shots w + length (List.filter dirty fs))%nat /\
            _deferred_render_timer (draw_frames fs w) = None).
  { unfold draw_frames.
    induction fs as [|f fs IH]; intros w Hw; simpl.
    - split; [lia | exact Hw].
    - destruct (dirty f) eqn:D.
      + apply dirty_filter in D.
        assert (Hs : single_shots (on_draw (fst f) (snd f) w) = S (single_shots w)
                     /\ _deferred_render_timer (on_draw (fst f) (snd f) w) = None).
        { unfold on_draw.
          destruct (List.filter (fst f) (snd f)); [congruence|].
          simpl. rewrite Hw. split; reflexivity. }
        destruct Hs as [Hs Ht].
        destruct (IH _ Ht) as [I1 I2]. rewrite I1, Hs. simpl. split; [lia | exact I2].
      + assert (E : on_draw (fst f) (snd f) w = w).
        { unfold on_draw.
          destruct (List.filter (fst f) (snd f)) eqn:F; [reflexivity|].
          assert (dirty f = true) by (apply dirty_filter; rewrite F; discriminate).
          congruence. }
        rewrite E. apply IH. exact Hw. }
  destruct (G frames fresh eq_refl) as [G1 G2].
  split; [rewrite G1; reflexivity|]. split; [exact G2|].
  intros f self D. unfold on_draw.
  destruct (List.filter (fst f) (snd f)) eqn:F; [reflexivity|].
  assert (dirty f = true) by (apply dirty_filter; rewrite F; discriminate).
  congruence.
Qed.

Lemma every_dirty_frame_schedules_a_shot_witness :
  single_shots
    (draw_frames [(paint_true_on [layer_A], [layer_A; layer_B]);
                  (paint_true_on [], [layer_A; layer_B]);
                  (paint_true_on [layer_A], [layer_A; layer_B])] fresh)
  = 2%nat /\
  on_draw (paint_true_on []) [layer_A; layer_B] fresh = fresh.
Proof.
  pose proof (every_dirty_frame_schedules_a_shot
                [(paint_true_on [layer_A], [layer_A; layer_B]);
                 (paint_true_on [], [layer_A; layer_B]);
                 (paint_true_on [layer_A], [layer_A; layer_B])]) as (H1 & _ & H3).
  split; [exact H1|].
  exact (H3 (paint_true_on [], [layer_A; layer_B]) fresh eq_refl).
Defined.

End MapWidgetExtras.

(** ** Viewport, animation and mouse activities *)

Module MapViewFacts.
Import MapView ExtraSpec.

Lemma Qeq_bool_false (x y : Q) : ~ (x == y)%Q -> Qeq_bool x y = false.
Proof.
  intros H. destruct (Qeq_bool x y) eqn:E; [|reflexivity].
  apply Qeq_bool_eq in E. contradiction.
Qed.

Lemma Qeq_bool_true (x y : Q) : (x == y)%Q -> Qeq_bool x y = true.
Proof. intros H. apply Qeq_bool_iff. exact H. Qed.






(** A pan that returned has moved the viewport by the pixel displacement. *)
Lemma panViewport_returns_inv (self s1 : canvas) (pdy pdx : Z)
    (wdy wdx : option Q) (v : box Q) :
  panViewport (Some pdy) (Some pdx) wdy wdx self = (Returns v, s1) ->
  viewport s1 = pan_by self pdy pdx /\ size s1 = size self.
Proof.
  unfold panViewport, pan_by, update_proj.
  destruct (size self) as [pw ph] eqn:Es. cbn [fst snd].
  destruct (Z.eqb_spec ph 0); [discriminate|].
  destruct (Z.eqb_spec pw 0); [discriminate|].
  cbn [size set_viewport fst viewport]. rewrite Es. cbn [fst].
  destruct (Z.eqb_spec pw 0); [contradiction|].
  repeat match goal with
         | |- context [if Qeq_bool ?x ?y then _ else _] =>
             destruct (Qeq_bool x y); [discriminate|]
         end.
  intros H. injection H as _ <-.
  cbn [viewport size update set_projection]. split; [reflexivity | exact Es].
Qed.

(** X24.  Pans add up: two pans in a row, by (pdy1, pdx1) and then by
    (pdy2, pdx2) pixels, leave the viewport where a single pan by
    (pdy1 + pdy2, pdx1 + pdx2) would have put it; in particular panning back
    by the opposite displacement restores the viewport. *)
Theorem panViewport_composes (self s1 s2 : canvas) (pdy1 pdx1 pdy2 pdx2 : Z)
    (v1 v2 : box Q) :
  fst (size self) <> 0 -> snd (size self) <> 0 ->
  panViewport (Some pdy1) (Some pdx1) None None self = (Returns v1, s1) ->
  panViewport (Some pdy2) (Some pdx2) None None s1 = (Returns v2, s2) ->
  box_eq (viewport s2) (pan_by self (pdy1 + pdy2) (pdx1 + pdx2)) /\
  (pdy1 + pdy2 = 0 -> pdx1 + pdx2 = 0 -> box_eq (viewport s2) (viewport self)).
Proof.
  intros Hw Hh H1 H2.
  destruct (panViewport_returns_inv _ _ _ _ _ _ _ H1) as [V1 S1].
  destruct (panViewport_returns_inv _ _ _ _ _ _ _ H2) as [V2 _].
  pose proof (float_nonzero _ Hw) as Hw'. pose proof (float_nonzero _ Hh) as Hh'.
  assert (B : box_eq (viewport s2) (pan_by self (pdy1 + pdy2) (pdx1 + pdx2))).
  { rewrite V2. unfold pan_by at 1. rewrite V1, S1. unfold pan_by, box_eq.
    cbn [b l t r]. unfold float in *. rewrite !inject_Z_plus.
    repeat split; field; assumption. }
  split; [exact B|].
  intros Zy Zx. rewrite Zy, Zx in B.
  destruct B as (B1 & B2 & B3 & B4). unfold pan_by in *. cbn [b l t r] in *.
  unfold box_eq. rewrite B1, B2, B3, B4. unfold float in *.
  repeat split; field; assumption.
Qed.

Lemma panViewport_composes_witness :
  let s1 := snd (panViewport (Some 60) (Some 80) None None example_canvas) in
  let s2 := snd (panViewport (Some (-60)) (Some (-80)) None None s1) in
  panViewport (Some 60) (Some 80) None None example_canvas
    = (Returns (viewport s1), s1) /\
  panViewport (Some (-60)) (Some (-80)) None None s1
    = (Returns (viewport s2), s2) /\
  box_eq (viewport s2) (viewport example_canvas).
Proof.
  intros s1 s2.
  assert (E1 : panViewport (Some 60) (Some 80) None None example_canvas
               = (Returns (viewport s1), s1)) by (vm_compute; reflexivity).
  assert (E2 : panViewport (Some (-60)) (Some (-80)) None None s1
               = (Returns (viewport s2), s2)) by (vm_compute; reflexivity).
  split; [exact E1|]. split; [exact E2|].
  refine (proj2 (panViewport_composes example_canvas s1 s2 60 80 (-60) (-80)
                   _ _ _ _ E1 E2) eq_refl eq_refl); discriminate.
Defined.








Lemma half_zoom_collapses (lo hi wh : Q) (pdz : Z) :
  ~ (wh == 0)%Q -> ~ (inject_Z (2 * pdz) == 0)%Q ->
  (hi - (hi - lo) / wh * (inject_Z pdz / inject_Z (2 * pdz) * wh)
   == lo + (hi - lo) / wh * (inject_Z pdz / inject_Z (2 * pdz) * wh))%Q.
Proof.
  intros H1 H2. rewrite inject_Z_mult in *. change (inject_Z 2) with 2%Q in *.
  field. split; [|exact H1].
  intros E. apply H2. rewrite E. ring.
Qed.

Lemma half_zoom_flattens (lo hi : Q) (pdz : Z) :
  ~ (inject_Z (2 * pdz) == 0)%Q ->
  (hi - inject_Z pdz / inject_Z (2 * pdz) * (hi - lo)
   == lo + inject_Z pdz / inject_Z (2 * pdz) * (hi - lo))%Q.
Proof.
  intros H2. rewrite inject_Z_mult in *. change (inject_Z 2) with 2%Q in *.
  field. intros E. apply H2. rewrite E. ring.
Qed.

(** X26.  Zooming in by half the widget height is fatal.  On a widget of
    non-zero size whose viewport is centred on the equator (bottom = -top,
    as the viewport the widget starts with, and every viewport reached from
    it by zooming alone), [zoomViewport] by half the height in pixels stores
    a viewport of zero height and then raises [AssertionError] from [ortho],
    leaving the projection stale; from then on every zoom raises
    [ZeroDivisionError] and changes nothing, and every pan raises
    [AssertionError]. *)
Theorem zoomViewport_collapse (self : canvas) (pdz : Z) (wdz : option Q) :
  fst (size self) <> 0 -> snd (size self) <> 0 ->
  (b (viewport self) == - t (viewport self))%Q ->
  ~ (t (viewport self) == 0)%Q ->
  2 * pdz = snd (size self) ->
  exists s1,
    zoomViewport (Some pdz) wdz self = (Raises (PyExn AssertionError), s1) /\
    (t (viewport s1) == b (viewport s1))%Q /\
    projection s1 = projection self /\
    size s1 = size self /\
    (forall pdz' wdz',
       zoomViewport (Some pdz') wdz' s1
       = (Raises (PyExn ZeroDivisionError), s1)) /\
    (forall pdy pdx wdy wdx,
       exists s2,
         panViewport (Some pdy) (Some pdx) wdy wdx s1
         = (Raises (PyExn AssertionError), s2)).
Proof.
  intros Hw Hh Hsym Ht Hhalf.
  assert (Hwh : ~ (t (viewport self) - b (viewport self) == 0)%Q).
  { intros E. apply Ht. rewrite Hsym in E.
    assert (E2 : (t (viewport self)
                  == (t (viewport self) - - t (viewport self)) * (1 # 2))%Q)
      by ring.
    rewrite E2, E. ring. }
  destruct (size self) as [pw ph] eqn:Es. cbn [fst snd] in *. subst ph.
  pose proof (float_nonzero _ Hh) as Hh'. unfold float in Hh'.
  pose proof (half_zoom_collapses (l (viewport self)) (r (viewport self))
                _ pdz Hwh Hh') as Hrl.
  pose proof (half_zoom_flattens (b (viewport self)) (t (viewport self))
                pdz Hh') as Htb.
  eexists. split; [|split; [|split; [|split; [|split]]]].
  - unfold zoomViewport. rewrite Es.
    destruct (Z.eqb_spec (2 * pdz) 0); [contradiction|].
    destruct (Z.eqb_spec pw 0); [contradiction|].
    rewrite (Qeq_bool_false _ _ Hwh).
    unfold update_proj. cbn [size set_viewport fst viewport r l]. rewrite Es.
    cbn [fst].
    destruct (Z.eqb_spec pw 0); [contradiction|].
    unfold float. rewrite (Qeq_bool_true _ _ Hrl). reflexivity.
  - cbn [viewport set_viewport t b]. unfold float. exact Htb.
  - reflexivity.
  - exact Es.
  - intros pdz' wdz'. unfold zoomViewport.
    cbn [size set_viewport viewport t b]. rewrite Es.
    destruct (Z.eqb_spec (2 * pdz) 0); [contradiction|].
    destruct (Z.eqb_spec pw 0); [contradiction|].
    rewrite Qeq_bool_true; [reflexivity|].
    unfold float. rewrite Htb. ring.
  - intros pdy pdx wdy wdx. unfold panViewport.
    cbn [size set_viewport]. rewrite Es.
    destruct (Z.eqb_spec (2 * pdz) 0); [contradiction|].
    destruct (Z.eqb_spec pw 0); [contradiction|].
    unfold update_proj. cbn [size set_viewport fst viewport r l]. rewrite Es.
    cbn [fst].
    destruct (Z.eqb_spec pw 0); [contradiction|].
    rewrite Qeq_bool_true; [eexists; reflexivity|].
    unfold float. rewrite Hrl. reflexivity.
Qed.

Lemma zoomViewport_collapse_witness :
  exists s1,
    zoomViewport (Some 300) None example_canvas
      = (Raises (PyExn AssertionError), s1) /\
    zoomViewport (Some 1) None s1 = (Raises (PyExn ZeroDivisionError), s1) /\
    exists s2,
      panViewport (Some 5) (Some 5) None None s1
      = (Raises (PyExn AssertionError), s2).
Proof.
  destruct (zoomViewport_collapse example_canvas 300 None)
    as (s1 & H1 & _ & _ & _ & H2 & H3); try discriminate; try reflexivity.
  exists s1. split; [exact H1|]. split; [exact (H2 1 None)|].
  exact (H3 5 5 None None).
Defined.

(** *** The activity stack *)

Lemma update_proj_outcome (self : canvas) :
  exists res self',
    update_proj self = (res, self') /\
    _activity_stack self' = _activity_stack self /\
    (res = Returns tt \/ res = Raises (PyExn ZeroDivisionError)
     \/ res = Raises (PyExn AssertionError)).
Proof.
  unfold update_proj.
  destruct (fst (size self) =? 0);
    [do 2 eexists; split; [reflexivity|]; split; [reflexivity|]; tauto|].
  destruct (Qeq_bool (r (viewport self)) (l (viewport self)));
    [do 2 eexists; split; [reflexivity|]; split; [reflexivity|]; tauto|].
  destruct (Qeq_bool (t (viewport self)) (b (viewport self)));
    do 2 eexists; (split; [reflexivity|]); (split; [reflexivity|]); tauto.
Qed.

Lemma panViewport_outcome (pdy pdx : Z) (wdy wdx : option Q) (self : canvas) :
  exists res self',
    panViewport (Some pdy) (Some pdx) wdy wdx self = (res, self') /\
    _activity_stack self' = _activity_stack self /\
    ((exists v, res = Returns v) \/ res = Raises (PyExn ZeroDivisionError)
     \/ res = Raises (PyExn AssertionError)).
Proof.
  unfold panViewport.
  destruct (size self) as [pw ph] eqn:Es.
  destruct (Z.eqb_spec ph 0);
    [do 2 eexists; split; [reflexivity|]; split; [reflexivity|]; tauto|].
  destruct (Z.eqb_spec pw 0);
    [do 2 eexists; split; [reflexivity|]; split; [reflexivity|]; tauto|].
  match goal with
  | |- context [update_proj ?c] =>
      destruct (update_proj_outcome c) as (res & c' & E & Hst & Hres);
      rewrite E
  end.
  destruct Hres as [->|[->| ->]];
    do 2 eexists; (split; [reflexivity|]);
    (split; [try exact Hst; cbn [_activity_stack update]; exact Hst|]).
  - left. eexists; reflexivity.
  - right; left; reflexivity.
  - right; right; reflexivity.
Qed.

Lemma zoomViewport_outcome (pdz : Z) (wdz : option Q) (self : canvas) :
  exists res self',
    zoomViewport (Some pdz) wdz self = (res, self') /\
    _activity_stack self' = _activity_stack self /\
    (res = Returns tt \/ res = Raises (PyExn ZeroDivisionError)
     \/ res = Raises (PyExn AssertionError)).
Proof.
  unfold zoomViewport.
  destruct (size self) as [pw ph] eqn:Es.
  destruct (Z.eqb_spec ph 0);
    [do 2 eexists; split; [reflexivity|]; split; [reflexivity|]; tauto|].
  destruct (Z.eqb_spec pw 0);
    [do 2 eexists; split; [reflexivity|]; split; [reflexivity|]; tauto|].
  destruct (Qeq_bool (t (viewport self) - b (viewport self)) 0);
    [do 2 eexists; split; [reflexivity|]; split; [reflexivity|]; tauto|].
  match goal with
  | |- context [update_proj ?c] =>
      destruct (update_proj_outcome c) as (res & c' & E & Hst & Hres);
      rewrite E
  end.
  destruct Hres as [->|[->| ->]];
    do 2 eexists; (split; [reflexivity|]);
    (split; [try exact Hst; cbn [_activity_stack update]; exact Hst|]); tauto.
Qed.

Lemma tame_release : tame mouseReleaseEvent.
Proof. intros a ev m n a' m' H. destruct a; discriminate. Qed.

Lemma tame_move : tame mouseMoveEvent.
Proof.
  intros a ev m n a' m' H. destruct a as [| |[[lx ly]|]| |]; try discriminate.
  unfold mouseMoveEvent in H.
  destruct (panViewport (Some (ev_y ev - ly)) (Some (lx - ev_x ev)) None None m)
    as [[v|e] m1]; discriminate.
Qed.

Lemma tame_press : tame mousePressEvent.
Proof.
  intros a ev m n a' m' H ev2 m2.
  destruct a; try discriminate; injection H as <- _ _;
    left; do 2 eexists; reflexivity.
Qed.

Lemma tame_wheel : tame wheelEvent.
Proof.
  intros a ev m n a' m' H ev2 m2.
  assert (Hn : n = UserZoomingMap).
  { destruct a; try discriminate; try (injection H as <- _ _; reflexivity).
    unfold wheelEvent in H.
    destruct (zoomViewport (Some (ev_delta ev)) None m) as [[[]|e] m1];
      discriminate. }
  subst n. unfold wheelEvent.
  destruct (zoomViewport_outcome (ev_delta ev2) None m2)
    as (res & m3 & E & _ & [->|[->| ->]]); rewrite E.
  - left. do 2 eexists; reflexivity.
  - right. do 2 eexists; reflexivity.
  - right. do 2 eexists; reflexivity.
Qed.

Lemma dispatch_terminates_tame (h : handler) (ev : mouse_event) :
  tame h ->
  forall st self fuel,
    _activity_stack self = st -> (length st + 2 <= fuel)%nat ->
    exists res, dispatch fuel h ev self = Some res.
Proof.
  intros Htame. induction st as [|a rest IH]; intros self fuel Hst Hf;
    (destruct fuel as [|fuel]; [simpl in Hf; lia|]); simpl; rewrite Hst.
  - eexists; reflexivity.
  - destruct (h a ev self) as [[[rep a']|e] m'] eqn:E; [|eexists; reflexivity].
    destruct rep as [| |n].
    + eexists; reflexivity.
    + apply IH; [reflexivity | simpl in Hf; lia].
    + destruct fuel as [|fuel]; [simpl in Hf; lia|]. simpl.
      destruct (Htame _ _ _ _ _ _ E ev (set_stack (n :: a' :: rest) m'))
        as [(a2 & m3 & E2)|(e2 & m3 & E2)]; rewrite E2; eexists; reflexivity.
Qed.

(** X27.  The event loop always comes to an end: for every widget state,
    whatever activities are on the stack, each of [on_mouse_press],
    [on_mouse_move], [on_mouse_release] and [on_mouse_wheel] finishes within
    as many iterations as the stack is deep, plus two. *)
Theorem on_mouse_terminates (m : mouse) (self : canvas) :
  exists res,
    on_mouse (length (_activity_stack self) + 2) m self = Some res.
Proof.
  destruct m as [e|e|e|e]; simpl;
    [ apply (dispatch_terminates_tame _ e tame_press (_activity_stack self))
    | apply (dispatch_terminates_tame _ e tame_move (_activity_stack self))
    | apply (dispatch_terminates_tame _ e tame_release (_activity_stack self))
    | apply (dispatch_terminates_tame _ e tame_wheel (_activity_stack self)) ];
    (reflexivity || lia).
Qed.

Ltac settle :=
  do 2 eexists; split; [reflexivity|]; split;
  [ unfold settled; cbn [_activity_stack set_stack];
    first [ left; reflexivity
          | right; left; eexists; reflexivity
          | right; right; reflexivity
          | assumption ]
  | first [ left; reflexivity
          | right; left; reflexivity
          | right; right; reflexivity ] ].

(** X28.  Starting from idling the activity stack only ever holds
    [Idling], or [Idling] with one pan or one zoom in progress on top: from
    such a stack every mouse event is handled within four iterations and
    leaves such a stack; it either returns, or raises [ZeroDivisionError] (a
    zero-sized widget or a viewport of zero height) or [AssertionError]
    ([ortho] refusing a viewport of zero width or height).  The stack is
    never found empty and a pan never misses its last mouse position. *)
Theorem on_mouse_keeps_settled (m : mouse) (self : canvas) :
  settled (_activity_stack self) ->
  exists res self',
    on_mouse 4 m self = Some (res, self') /\
    settled (_activity_stack self') /\
    (res = Returns tt \/ res = Raises (PyExn ZeroDivisionError)
     \/ res = Raises (PyExn AssertionError)).
Proof.
  intros Hs.
  destruct self as [sz vp pr st an fn tr ur]. cbn [_activity_stack] in Hs.
  destruct Hs as [->|[[[lx ly] ->]| ->]]; destruct m as [e|e|e|e];
    unfold on_mouse, on_mouse_press, on_mouse_move, on_mouse_release,
           on_mouse_wheel;
    cbn [dispatch _activity_stack set_stack mousePressEvent mouseMoveEvent
         mouseReleaseEvent wheelEvent];
    try solve [settle].
  - (* idling, wheel *)
    match goal with
    | |- context [zoomViewport (Some ?d) None ?c] =>
        destruct (zoomViewport_outcome d None c)
          as (res & c' & E & Hst & [->|[->| ->]]); rewrite E
    end.
    + settle.
    + do 2 eexists. split; [reflexivity|]. split; [|right; left; reflexivity].
      rewrite Hst. right; right; reflexivity.
    + do 2 eexists. split; [reflexivity|]. split; [|right; right; reflexivity].
      rewrite Hst. right; right; reflexivity.
  - (* panning, move *)
    match goal with
    | |- context [panViewport (Some ?y) (Some ?x) None None ?c] =>
        destruct (panViewport_outcome y x None None c)
          as (res & c' & E & Hst & [[v ->]|[->| ->]]); rewrite E
    end.
    + settle.
    + do 2 eexists. split; [reflexivity|]. split; [|right; left; reflexivity].
      rewrite Hst. right; left; eexists; reflexivity.
    + do 2 eexists. split; [reflexivity|]. split; [|right; right; reflexivity].
      rewrite Hst. right; left; eexists; reflexivity.
  - (* zooming, wheel *)
    match goal with
    | |- context [zoomViewport (Some ?d) None ?c] =>
        destruct (zoomViewport_outcome d None c)
          as (res & c' & E & Hst & [->|[->| ->]]); rewrite E
    end.
    + settle.
    + do 2 eexists. split; [reflexivity|]. split; [|right; left; reflexivity].
      rewrite Hst. right; right; reflexivity.
    + do 2 eexists. split; [reflexivity|]. split; [|right; right; reflexivity].
      rewrite Hst. right; right; reflexivity.
Qed.

Lemma on_mouse_keeps_settled_witness :
  settled (_activity_stack example_canvas) /\
  exists res self',
    on_mouse 4 (Wheel (mkEvent 10 10 300)) example_canvas = Some (res, self') /\
    settled (_activity_stack self') /\
    (res = Returns tt \/ res = Raises (PyExn ZeroDivisionError)
     \/ res = Raises (PyExn AssertionError)).
Proof.
  assert (H : settled (_activity_stack example_canvas)) by (left; reflexivity).
  split; [exact H|].
  exact (on_mouse_keeps_settled (Wheel (mkEvent 10 10 300)) example_canvas H).
Defined.



End MapViewFacts.

(** *** Animation *)

Module AnimationFacts.
Import MapView ExtraSpec.

Lemma next_frame_iter (n : nat) (self : canvas) :
  _frame_number (Nat.iter n (next_frame None) self)
    = _frame_number self + Z.of_nat n /\
  _animating (Nat.iter n (next_frame None) self) = _animating self /\
  animation_timer_running (Nat.iter n (next_frame None) self)
    = animation_timer_running self.
Proof.
  induction n as [|n IH].
  - simpl. split; [lia | split; reflexivity].
  - destruct IH as (I1 & I2 & I3).
    change (Nat.iter (S n) (next_frame None) self)
      with (next_frame None (Nat.iter n (next_frame None) self)).
    unfold next_frame at 1 3 5.
    cbn [_frame_number _animating animation_timer_running update].
    rewrite I1, I2, I3. split; [lia | split; reflexivity].
Qed.

(** X30.  The animation timer runs exactly while the widget is animating:
    if that holds before [set_animating], it holds afterwards, and the flag
    is what was asked for (the opposite of the current one when asked to
    toggle); stopping resets the frame number to 0, starting keeps it, a
    request for the state already reached changes nothing, and frame ticks
    in between advance the frame number by one each without touching the
    flag or the timer. *)
Theorem animation_timer_follows_flag (self : canvas) (a : option bool) (n : nat) :
  animation_timer_running self = _animating self ->
  let want := match a with None => negb (_animating self) | Some x => x end in
  let s1 := set_animating a self in
  let s2 := Nat.iter n (next_frame None) s1 in
  _animating s1 = want /\
  animation_timer_running s1 = want /\
  _frame_number s1
    = (if _animating self && negb want then 0 else _frame_number self) /\
  set_animating (Some want) s1 = s1 /\
  _animating s2 = want /\
  animation_timer_running s2 = want /\
  _frame_number s2 = _frame_number s1 + Z.of_nat n.
Proof.
  intros Hinv want s1 s2.
  assert (H1 : _animating s1 = want /\ animation_timer_running s1 = want /\
               _frame_number s1
               = (if _animating self && negb want then 0 else _frame_number self) /\
               set_animating (Some want) s1 = s1).
  { subst s1 want. unfold set_animating.
    destruct a as [[|]|]; destruct (_animating self) eqn:Ea;
      cbn [negb andb _animating animation_timer_running _frame_number];
      rewrite ?Ea; cbn [negb andb];
      repeat split; try reflexivity; try assumption;
      try (rewrite Hinv; reflexivity). }
  destruct H1 as (A1 & A2 & A3 & A4).
  destruct (next_frame_iter n s1) as (N1 & N2 & N3). fold s2 in N1, N2, N3.
  repeat split; try assumption; congruence.
Qed.

Lemma animation_timer_follows_flag_witness :
  let s1 := set_animating None example_canvas in
  _animating s1 = true /\
  animation_timer_running s1 = true /\
  _frame_number (Nat.iter 3 (next_frame None) s1) = 3 /\
  _frame_number (set_animating None (Nat.iter 3 (next_frame None) s1)) = 0.
Proof.
  intros s1.
  pose proof (animation_timer_follows_flag example_canvas None 3 eq_refl)
    as (A1 & A2 & _ & _ & B1 & B2 & B3).
  fold s1 in A1, A2, B1, B2, B3.
  pose proof (animation_timer_follows_flag (Nat.iter 3 (next_frame None) s1)
                None 0) as H.
  cbv zeta in H. rewrite B1, B2 in H.
  destruct (H eq_refl) as (_ & _ & C3 & _).
  split; [exact A1|]. split; [exact A2|].
  split; [rewrite B3; reflexivity | exact C3].
Defined.

End AnimationFacts.
